(** * handouts/handout_01: the fixed-grid RKF45 integrator [rk45], the
    catalysis right-hand side [f_catalysis] and the Monte Carlo loop of
    [plot_samples], as a shallow embedding.

    - Numbers.  A Python [float] and a numpy [float64] are IEEE binary64
      values: Rocq's primitive [float], with the same format and the same
      round-to-nearest-even arithmetic.  A Python integer is a [Z]; inside
      an array it is an [int64].
    - Arrays.  [np.array([y0] * n)] takes its element type from [y0], so a
      trajectory is either an array of integers or an array of doubles.
      Sums of vectors broadcast as numpy does, and a row assignment casts
      to the element type of the array.
    - Exceptions are the [Err] branch of [result]; the code is sequenced
      with [let!] in Python's order of evaluation.
    - [scipy.stats.norm.rvs] and [np.exp] are parameters of the sample
      loop; plotting is the list of curves drawn on the axes. *)

From Stdlib Require Import ZArith QArith Qabs Qround Lia.
From Stdlib Require Import PrimFloat SpecFloat FloatOps.
From stdpp Require Import base list.

Set Warnings "-inexact-float".

Local Open Scope Z_scope.
Local Open Scope nat_scope.

(** ** Exceptions *)

Inductive exn : Type :=
| IndexError
| ValueError
| Raised (code : Z).   (* whatever else a user callable raises *)

Inductive result (A : Type) : Type :=
| Ok (a : A)
| Err (e : exn).
Arguments Ok {A} a.
Arguments Err {A} e.

Definition bind {A B} (m : result A) (k : A -> result B) : result B :=
  match m with
  | Ok a => k a
  | Err e => Err e
  end.

Definition rmap {A B} (g : A -> B) (m : result A) : result B :=
  bind m (fun a => Ok (g a)).

Notation "'let!' x ':=' m 'in' k" := (bind m (fun x => k))
  (at level 10, x pattern, m at level 100, k at level 200,
   format "'[v' 'let!'  x  ':='  m  'in' '/' k ']'").

Definition index {A} (l : list A) (i : nat) : result A :=
  match l !! i with
  | Some a => Ok a
  | None => Err IndexError
  end.

(** ** Scalars *)

Module F.
Definition add := PrimFloat.add.
Definition sub := PrimFloat.sub.
Definition mul := PrimFloat.mul.
Definition div := PrimFloat.div.
Definition opp := PrimFloat.opp.

(** [float(z)]: the double nearest to [z], ties to even. *)
Definition of_Z (z : Z) : float :=
  SF2Prim (binary_normalize prec emax z 0%Z false).

(** The exact rational value of a finite double. *)
Definition to_Q (x : float) : option Q :=
  match Prim2SF x with
  | S754_zero _ => Some (0 # 1)%Q
  | S754_finite s m e =>
      let n := if s then Zneg m else Zpos m in
      Some match e with
           | Z0 => (n # 1)%Q
           | Zpos p => ((n * Z.pow_pos 2 p) # 1)%Q
           | Zneg p => (n # Pos.pow 2 p)%Q
           end
  | S754_infinity _ | S754_nan => None
  end.
End F.

Definition int64_min : Z := (- 2 ^ 63)%Z.
Definition int64_max : Z := (2 ^ 63 - 1)%Z.
Definition in_int64 (z : Z) : Prop := (int64_min <= z <= int64_max)%Z.

(** Rounding toward zero of a rational. *)
Definition Qtrunc (q : Q) : Z :=
  if Qle_bool 0 q then Qfloor q else Qceiling q.

(** The C cast [(int64_t) x] numpy applies when a [float64] value is stored
    into an [int64] array: the fractional part is dropped; a NaN, an
    infinity or a value outside the range gives the x86-64 "integer
    indefinite" value [-2^63]. *)
Definition float_to_int64 (x : float) : Z :=
  match Prim2SF x with
  | S754_zero _ => 0%Z
  | S754_finite s m e =>
      let a := match e with
               | Z0 => Zpos m
               | Zpos p => Z.shiftl (Zpos m) (Zpos p)
               | Zneg p => Z.shiftr (Zpos m) (Zpos p)
               end in
      let z := if s then Z.opp a else a in
      if (int64_min <=? z)%Z && (z <=? int64_max)%Z then z else int64_min
  | S754_infinity _ | S754_nan => int64_min
  end.

(** A Python number as the caller writes it in [y0]. *)
Inductive pynum : Type :=
| PyInt (z : Z)
| PyFloat (x : float).

Definition is_int (a : pynum) : bool :=
  match a with PyInt _ => true | PyFloat _ => false end.
Definition int_of (a : pynum) : Z :=
  match a with PyInt z => z | PyFloat x => float_to_int64 x end.
Definition float_of (a : pynum) : float :=
  match a with PyInt z => F.of_Z z | PyFloat x => x end.

(** ** Arrays *)

Abbreviation fvec := (list float).

(** A one-dimensional array: a row of the trajectory, or what [f] is given. *)
Inductive ndarray1 : Type :=
| IntVec (v : list Z)
| FloatVec (v : fvec).

(** A two-dimensional array of one element type. *)
Inductive ndarray2 : Type :=
| IntArr (rows : list (list Z))
| FloatArr (rows : list fvec).

Inductive dtype : Type := int64 | float64.

Definition dtype_of (y : ndarray2) : dtype :=
  match y with IntArr _ => int64 | FloatArr _ => float64 end.

Definition nrows (y : ndarray2) : nat :=
  match y with IntArr rs => length rs | FloatArr rs => length rs end.

Definition len1 (r : ndarray1) : nat :=
  match r with IntVec v => length v | FloatVec v => length v end.

(** The values of a row as Python numbers. *)
Definition items (r : ndarray1) : list pynum :=
  match r with IntVec v => map PyInt v | FloatVec v => map PyFloat v end.

(** What arithmetic with a [float64] operand sees of a row. *)
Definition as_float (r : ndarray1) : fvec :=
  match r with IntVec v => map F.of_Z v | FloatVec v => v end.

(** [astype]: a [float64] vector stored under element type [d]. *)
Definition cast (d : dtype) (v : fvec) : ndarray1 :=
  match d with
  | int64 => IntVec (map float_to_int64 v)
  | float64 => FloatVec v
  end.

(** The element type numpy finds for a sequence of Python numbers:
    [int64] when all are integers, [float64] as soon as one is a float, and
    [float64] for the empty sequence.  This is for integers that fit
    [int64] ([wf_state] below); for larger ones numpy builds an unsigned or
    an object array, which is not modelled. *)
Definition result_type (y0 : list pynum) : dtype :=
  match y0 with
  | [] => float64
  | _ => if forallb is_int y0 then int64 else float64
  end.

(** [np.array(y0)]: one row of the array below. *)
Definition np_array1 (y0 : list pynum) : ndarray1 :=
  match result_type y0 with
  | int64 => IntVec (map int_of y0)
  | float64 => FloatVec (map float_of y0)
  end.

(** [np.array([y0] * n)]; without rows the array is the empty [float64]
    vector. *)
Definition np_array_rep (y0 : list pynum) (n : nat) : ndarray2 :=
  match n with
  | O => FloatArr []
  | _ => match result_type y0 with
         | int64 => IntArr (replicate n (map int_of y0))
         | float64 => FloatArr (replicate n (map float_of y0))
         end
  end.

(** [y[i]] *)
Definition getrow (y : ndarray2) (i : nat) : result ndarray1 :=
  match y with
  | IntArr rs => rmap IntVec (index rs i)
  | FloatArr rs => rmap FloatVec (index rs i)
  end.

(** numpy's broadcast of a vector to length [n]. *)
Definition broadcast_to (n : nat) (v : fvec) : result fvec :=
  if length v =? n then Ok v
  else match v with
       | [x] => Ok (replicate n x)
       | _ => Err ValueError
       end.

(** [y[i] = v] with [v] a [float64] vector. *)
Definition setrow (y : ndarray2) (i : nat) (v : fvec) : result ndarray2 :=
  match y with
  | IntArr rs =>
      let! old := index rs i in
      let! w := broadcast_to (length old) v in
      Ok (IntArr (<[i := map float_to_int64 w]> rs))
  | FloatArr rs =>
      let! old := index rs i in
      let! w := broadcast_to (length old) v in
      Ok (FloatArr (<[i := w]> rs))
  end.

(** [c * k] for a scalar [c]. *)
Definition smul (c : float) (k : fvec) : fvec := map (F.mul c) k.

(** [u + v] on [float64] vectors, with numpy's broadcasting. *)
Definition bc_add (u v : fvec) : result fvec :=
  if length u =? length v then Ok (zip_with F.add u v)
  else match u, v with
       | [x], _ => Ok (map (F.add x) v)
       | _, [x] => Ok (map (fun a => F.add a x) u)
       | _, _ => Err ValueError
       end.

(** The left operand of a sum is itself a sum that may have failed. *)
Definition radd (s : result fvec) (v : fvec) : result fvec :=
  let! u := s in bc_add u v.

Infix "⊞" := radd (at level 50, left associativity).
Infix "⋅" := smul (at level 40, left associativity).

(** The length of a broadcast sum, when there is one. *)
Definition bc_len (m n : nat) : option nat :=
  if m =? n then Some m
  else if m =? 1 then Some n
  else if n =? 1 then Some m
  else None.

(** Two sums that fail together or succeed with one length. *)
Definition same_shape (s s' : result fvec) : Prop :=
  match s, s' with
  | Ok u, Ok u' => length u = length u'
  | Err e, Err e' => e = e'
  | _, _ => False
  end.

(** The array after [y[i] = w] once [w] has the length of a row. *)
Definition put_row (y : ndarray2) (i : nat) (w : fvec) : ndarray2 :=
  match y with
  | IntArr rs => IntArr (<[i := map float_to_int64 w]> rs)
  | FloatArr rs => FloatArr (<[i := w]> rs)
  end.

(** Every row has length [n]. *)
Definition width (y : ndarray2) (n : nat) : Prop :=
  forall i r, getrow y i = Ok r -> len1 r = n.

(** ** The integrator: [rk45] *)

Module Coef.
(** Coefficients used to compute the independent variable argument of f *)
Definition c20 : float := 2.500000000000000e-01.
Definition c30 : float := 3.750000000000000e-01.
Definition c40 : float := 9.230769230769231e-01.
Definition c50 : float := 1.000000000000000e+00.
Definition c60 : float := 5.000000000000000e-01.

(** Coefficients used to compute the dependent variable argument of f *)
Definition c21 : float := 2.500000000000000e-01.
Definition c31 : float := 9.375000000000000e-02.
Definition c32 : float := 2.812500000000000e-01.
Definition c41 : float := 8.793809740555303e-01.
Definition c42 : float := -3.277196176604461e+00.
Definition c43 : float := 3.320892125625853e+00.
Definition c51 : float := 2.032407407407407e+00.
Definition c52 : float := -8.000000000000000e+00.
Definition c53 : float := 7.173489278752436e+00.
Definition c54 : float := -2.058966861598441e-01.
Definition c61 : float := -2.962962962962963e-01.
Definition c62 : float := 2.000000000000000e+00.
Definition c63 : float := -1.381676413255361e+00.
Definition c64 : float := 4.529727095516569e-01.
Definition c65 : float := -2.750000000000000e-01.

(** Coefficients used to compute 4th order RK estimate *)
Definition a1 : float := 1.157407407407407e-01.
Definition a2 : float := 0.000000000000000e-00.
Definition a3 : float := 5.489278752436647e-01.
Definition a4 : float := 5.353313840155945e-01.
Definition a5 : float := -2.000000000000000e-01.

Definition b1 : float := 1.185185185185185e-01.
Definition b2 : float := 0.000000000000000e-00.
Definition b3 : float := 5.189863547758284e-01.
Definition b4 : float := 5.061314903420167e-01.
Definition b5 : float := -1.800000000000000e-01.
Definition b6 : float := 3.636363636363636e-02.
End Coef.
Import Coef.

(** The weights of the fifth-order combination, as one value so that the
    integrator can be compared at two choices of them. *)
Record weights5 : Type := W5 { w1 : float; w3 : float; w4 : float; w5 : float; w6 : float }.

Definition b_weights : weights5 := W5 b1 b3 b4 b5 b6.

Section Integrator.
(** [args] is the tuple forwarded as [*args]; [f] may raise. *)
Context {Args : Type}.
Variable f : ndarray1 -> float -> Args -> result fvec.
Variable args : Args.

(** [h * f(y, s, *args)] *)
Definition stage (h : float) (y : ndarray1) (s : float) : result fvec :=
  rmap (smul h) (f y s args).

(** The six stage evaluations of one pass of the loop body. *)
Definition stages (yi : ndarray1) (ti h : float)
  : result (fvec * fvec * fvec * fvec * fvec * fvec) :=
  let y := Ok (as_float yi) in
  let! k1 := stage h yi ti in
  let! s2 := y ⊞ c21 ⋅ k1 in
  let! k2 := stage h (FloatVec s2) (F.add ti (F.mul c20 h)) in
  let! s3 := y ⊞ c31 ⋅ k1 ⊞ c32 ⋅ k2 in
  let! k3 := stage h (FloatVec s3) (F.add ti (F.mul c30 h)) in
  let! s4 := y ⊞ c41 ⋅ k1 ⊞ c42 ⋅ k2 ⊞ c43 ⋅ k3 in
  let! k4 := stage h (FloatVec s4) (F.add ti (F.mul c40 h)) in
  let! s5 := y ⊞ c51 ⋅ k1 ⊞ c52 ⋅ k2 ⊞ c53 ⋅ k3 ⊞ c54 ⋅ k4 in
  let! k5 := stage h (FloatVec s5) (F.add ti h) in
  let! s6 := y ⊞ c61 ⋅ k1 ⊞ c62 ⋅ k2 ⊞ c63 ⋅ k3 ⊞ c64 ⋅ k4 ⊞ c65 ⋅ k5 in
  let! k6 := stage h (FloatVec s6) (F.add ti (F.mul c60 h)) in
  Ok (k1, k2, k3, k4, k5, k6).

(** The body of [for i in xrange(n - 1)], with the weights of [y5] held
    in [b]. *)
Definition rk45_body_with (b : weights5) (t : fvec) (i : nat) (y : ndarray2)
  : result ndarray2 :=
  let! ti1 := index t (i + 1) in
  let! ti := index t i in
  let h := F.sub ti1 ti in
  let! yi := getrow y i in
  let! (k1, k2, k3, k4, k5, k6) := stages yi ti h in
  let! y4 := Ok (as_float yi) ⊞ a1 ⋅ k1 ⊞ a3 ⋅ k3 ⊞ a4 ⋅ k4 ⊞ a5 ⋅ k5 in
  let! y' := setrow y (i + 1) y4 in
  let! yi' := getrow y' i in
  let! y5 := Ok (as_float yi') ⊞ w1 b ⋅ k1 ⊞ w3 b ⋅ k3 ⊞ w4 b ⋅ k4
               ⊞ w5 b ⋅ k5 ⊞ w6 b ⋅ k6 in
  Ok y'.

Fixpoint rk45_loop_with (b : weights5) (t : fvec) (idx : list nat) (y : ndarray2)
  : result ndarray2 :=
  match idx with
  | [] => Ok y
  | i :: idx' =>
      let! y' := rk45_body_with b t i y in
      rk45_loop_with b t idx' y'
  end.

Definition rk45_with (b : weights5) (y0 : list pynum) (t : fvec) : result ndarray2 :=
  let n := length t in
  let y := np_array_rep y0 n in
  rk45_loop_with b t (seq 0 (n - 1)) y.

(** [rk45(f, y0, t, args)] *)
Definition rk45 (y0 : list pynum) (t : fvec) : result ndarray2 :=
  rk45_with b_weights y0 t.
End Integrator.

(** ** The catalysis model: [f_catalysis] *)

(** [y[i]] for a float operation: an [int64] item is converted. *)
Definition item (y : ndarray1) (i : nat) : result float :=
  index (as_float y) i.

Definition f_catalysis (y : ndarray1) (t : float) (kappa : fvec) : result fvec :=
  let rhs := replicate 6 0%float in
  let! k0 := index kappa 0 in
  let! y0 := item y 0 in
  let rhs := <[0 := F.mul (F.opp k0) y0]> rhs in
  let! k0 := index kappa 0 in
  let! y0 := item y 0 in
  let! k1 := index kappa 1 in
  let! k3 := index kappa 3 in
  let! k4 := index kappa 4 in
  let! y1 := item y 1 in
  let rhs := <[1 := F.sub (F.mul k0 y0) (F.mul (F.add (F.add k1 k3) k4) y1)]> rhs in
  let! k1 := index kappa 1 in
  let! y1 := item y 1 in
  let! k2 := index kappa 2 in
  let! y2 := item y 2 in
  let rhs := <[2 := F.sub (F.mul k1 y1) (F.mul k2 y2)]> rhs in
  let! k2 := index kappa 2 in
  let! y2 := item y 2 in
  let rhs := <[3 := F.mul k2 y2]> rhs in
  let! k3 := index kappa 3 in
  let! y1 := item y 1 in
  let rhs := <[4 := F.mul k3 y1]> rhs in
  let! k4 := index kappa 4 in
  let! y1 := item y 1 in
  let rhs := <[5 := F.mul k4 y1]> rhs in
  Ok rhs.

(** ** The Monte Carlo loop: [plot_samples] *)

(** [np.linspace(start, stop, num)]: [arange(num) * step + start] with the
    last point set to [stop]. *)
Definition linspace (start stop : float) (num : nat) : fvec :=
  let delta := F.sub stop start in
  let step := F.div delta (F.of_Z (Z.of_nat (num - 1))) in
  let y := map (fun i => F.add (F.mul (F.of_Z (Z.of_nat i)) step) start) (seq 0 num) in
  match num with
  | O => []
  | S O => [F.add (F.mul 0%float delta) start]
  | _ => <[num - 1 := stop]> y
  end.

Fixpoint traverse {A B} (g : A -> result B) (l : list A) : result (list B) :=
  match l with
  | [] => Ok []
  | a :: l' =>
      let! b := g a in
      let! bs := traverse g l' in
      Ok (b :: bs)
  end.

(** [y[:, k]]; an array without rows is one-dimensional and has no column. *)
Definition column (y : ndarray2) (k : nat) : result ndarray1 :=
  match y with
  | IntArr [] | FloatArr [] => Err IndexError
  | IntArr rs => rmap IntVec (traverse (fun r => index r k) rs)
  | FloatArr rs => rmap FloatVec (traverse (fun r => index r k) rs)
  end.

(** A curve drawn on the axes: abscissae and ordinates. *)
Definition line : Type := fvec * ndarray1.

(** [ax.plot(x, c, ...)]: the two sequences must be equally long. *)
Definition ax_plot (ax : list line) (x : fvec) (c : ndarray1) : result (list line) :=
  if length x =? len1 c then Ok (ax ++ [(x, c)]) else Err ValueError.

(** The six curves [ax.plot(t, y[:, k])], k = 0..5, of one sample. *)
Definition plot_trajectory (t : fvec) (y : ndarray2) (ax : list line) : result (list line) :=
  let! c := column y 0 in let! ax := ax_plot ax t c in
  let! c := column y 1 in let! ax := ax_plot ax t c in
  let! c := column y 2 in let! ax := ax_plot ax t c in
  let! c := column y 3 in let! ax := ax_plot ax t c in
  let! c := column y 4 in let! ax := ax_plot ax t c in
  let! c := column y 5 in ax_plot ax t c.

Definition y0_catalysis : list pynum :=
  [PyFloat 500; PyFloat 0; PyFloat 0; PyFloat 0; PyFloat 0; PyFloat 0].

Section Propagator.
(** The random source behind [scipy.stats.norm.rvs] and [np.exp] are
    library code: they are taken as given.  A draw consumes the state of
    the generator and may be refused (a scale that is not positive). *)
Variable rng : Type.
Variable norm_rvs : float -> float -> rng -> result (float * rng).
Variable np_exp : float -> float.

(** What the loop changes: the generator and the curves on the axes. *)
Record world : Type := World { gen : rng; ax : list line }.

Record marginals : Type := Marginals {
  mu1 : float; sig1 : float;
  mu2 : float; sig2 : float;
  mu3 : float; sig3 : float;
  mu4 : float; sig4 : float;
  mu5 : float; sig5 : float
}.

(** One pass of [for i in xrange(num_samples)]. *)
Definition sample_body (t : fvec) (p : marginals) (w : world) : result world :=
  let! (xi1, g) := norm_rvs (mu1 p) (sig1 p) (gen w) in
  let! (xi2, g) := norm_rvs (mu2 p) (sig2 p) g in
  let! (xi3, g) := norm_rvs (mu3 p) (sig3 p) g in
  let! (xi4, g) := norm_rvs (mu4 p) (sig4 p) g in
  let! (xi5, g) := norm_rvs (mu5 p) (sig5 p) g in
  let kappa := map (fun x => F.div (np_exp x) 180%float) [xi1; xi2; xi3; xi4; xi5] in
  let! y := rk45 f_catalysis kappa y0_catalysis t in
  let! ax' := plot_trajectory t y (ax w) in
  Ok (World g ax').

Fixpoint sample_loop (t : fvec) (p : marginals) (n : nat) (w : world) : result world :=
  match n with
  | O => Ok w
  | S n' =>
      let! w' := sample_body t p w in
      sample_loop t p n' w'
  end.

(** [plot_samples(mu1, sig1, ..., num_samples)].  The function makes its
    own figure, draws the measured data on it and then runs the loop; [w]
    holds the generator and those axes as they are when the loop starts,
    and the result holds them as the loop leaves them (the function itself
    returns [None]).  When the loop raises, the curves already drawn stay
    on the figure; [Err] does not record them. *)
Definition plot_samples (p : marginals) (num_samples : Z) (w : world) : result world :=
  let t := linspace 0%float 180%float 100 in
  sample_loop t p (Z.to_nat num_samples) w.
End Propagator.

Arguments World {rng} gen ax.
Arguments gen {rng} w.
Arguments ax {rng} w.

(** ** The specification's reading of one step *)

(** Componentwise sum of two vectors of one length. *)
Definition vadd (u v : fvec) : fvec := zip_with F.add u v.
Infix "⊕" := vadd (at level 50, left associativity).

Section Spec.
Context {Args : Type}.
Variable f : ndarray1 -> float -> Args -> result fvec.
Variable args : Args.

(** A right-hand side for states of length [n]: it never raises and its
    derivative has the length of the state. *)
Definition shape_ok (n : nat) : Prop :=
  forall y s, len1 y = n -> exists v, f y s args = Ok v /\ length v = n.

(** The fourth-order Runge-Kutta-Fehlberg estimate advanced from state [y]
    at time [t] over a step [h]: six evaluations of [f], combined with
    the weights of [k1], [k3], [k4] and [k5]. *)
Definition rkf45_fourth_order (y : ndarray1) (t h : float) : result fvec :=
  let y_ := as_float y in
  let! d1 := f y t args in
  let k1 := h ⋅ d1 in
  let! d2 := f (FloatVec (y_ ⊕ c21 ⋅ k1)) (F.add t (F.mul c20 h)) args in
  let k2 := h ⋅ d2 in
  let! d3 := f (FloatVec (y_ ⊕ c31 ⋅ k1 ⊕ c32 ⋅ k2)) (F.add t (F.mul c30 h)) args in
  let k3 := h ⋅ d3 in
  let! d4 := f (FloatVec (y_ ⊕ c41 ⋅ k1 ⊕ c42 ⋅ k2 ⊕ c43 ⋅ k3))
               (F.add t (F.mul c40 h)) args in
  let k4 := h ⋅ d4 in
  let! d5 := f (FloatVec (y_ ⊕ c51 ⋅ k1 ⊕ c52 ⋅ k2 ⊕ c53 ⋅ k3 ⊕ c54 ⋅ k4))
               (F.add t h) args in
  let k5 := h ⋅ d5 in
  let! d6 := f (FloatVec (y_ ⊕ c61 ⋅ k1 ⊕ c62 ⋅ k2 ⊕ c63 ⋅ k3 ⊕ c64 ⋅ k4 ⊕ c65 ⋅ k5))
               (F.add t (F.mul c60 h)) args in
  Ok (y_ ⊕ a1 ⋅ k1 ⊕ a3 ⋅ k3 ⊕ a4 ⋅ k4 ⊕ a5 ⋅ k5).

(** Every entry after the first is the estimate advanced from the entry
    before it over [h = t[i+1] - t[i]]. *)
Definition follows_rkf4 (t : fvec) (tr : ndarray2) : Prop :=
  forall i yi yi1 ti ti1,
    getrow tr i = Ok yi -> getrow tr (S i) = Ok yi1 ->
    t !! i = Some ti -> t !! S i = Some ti1 ->
    rkf45_fourth_order yi ti (F.sub ti1 ti) = Ok (as_float yi1).

(** On an [int64] trajectory every entry after the first is that estimate
    with each component cast to an integer. *)
Definition follows_rkf4_cast (t : fvec) (tr : ndarray2) : Prop :=
  forall i yi yi1 ti ti1,
    getrow tr i = Ok yi -> getrow tr (S i) = Ok yi1 ->
    t !! i = Some ti -> t !! S i = Some ti1 ->
    exists v, rkf45_fourth_order yi ti (F.sub ti1 ti) = Ok v /\
              yi1 = cast (dtype_of tr) v.

(** The integrator with the line that computes [y5] removed. *)
Definition rk45_body_no_y5 (t : fvec) (i : nat) (y : ndarray2) : result ndarray2 :=
  let! ti1 := index t (i + 1) in
  let! ti := index t i in
  let h := F.sub ti1 ti in
  let! yi := getrow y i in
  let! (k1, k2, k3, k4, k5, k6) := stages f args yi ti h in
  let! y4 := Ok (as_float yi) ⊞ a1 ⋅ k1 ⊞ a3 ⋅ k3 ⊞ a4 ⋅ k4 ⊞ a5 ⋅ k5 in
  setrow y (i + 1) y4.

Fixpoint rk45_loop_no_y5 (t : fvec) (idx : list nat) (y : ndarray2) : result ndarray2 :=
  match idx with
  | [] => Ok y
  | i :: idx' =>
      let! y' := rk45_body_no_y5 t i y in
      rk45_loop_no_y5 t idx' y'
  end.

Definition rk45_no_y5 (y0 : list pynum) (t : fvec) : result ndarray2 :=
  let n := length t in
  rk45_loop_no_y5 t (seq 0 (n - 1)) (np_array_rep y0 n).
End Spec.

(** The classical Fehlberg 4(5) tableau, as exact fractions, next to the
    literal the code has for each entry. *)
Definition tableau : list (float * Q) :=
  [ (c20, 1 # 4); (c30, 3 # 8); (c40, 12 # 13); (c50, 1); (c60, 1 # 2);
    (c21, 1 # 4);
    (c31, 3 # 32); (c32, 9 # 32);
    (c41, 1932 # 2197); (c42, - (7200 # 2197)); (c43, 7296 # 2197);
    (c51, 439 # 216); (c52, - (8 # 1)); (c53, 3680 # 513); (c54, - (845 # 4104));
    (c61, - (8 # 27)); (c62, 2); (c63, - (3544 # 2565)); (c64, 1859 # 4104);
    (c65, - (11 # 40));
    (a1, 25 # 216); (a2, 0); (a3, 1408 # 2565); (a4, 2197 # 4104); (a5, - (1 # 5));
    (b1, 16 # 135); (b2, 0); (b3, 6656 # 12825); (b4, 28561 # 56430);
    (b5, - (9 # 50)); (b6, 2 # 55) ]%Q.

(** [x] is the fraction [q] to within one part in [10^15]. *)
Definition close_to (x : float) (q : Q) : bool :=
  match F.to_Q x with
  | Some v => Qle_bool (Qabs (v - q)) (Qabs q * (1 # 10 ^ 15))
  | None => false
  end.

(** Python's [==] between two numbers of either kind, as a proposition;
    floats are compared bit for bit. *)
Definition same_number (a b : pynum) : Prop :=
  match a, b with
  | PyInt z, PyInt z' => z = z'
  | PyFloat x, PyFloat x' => x = x'
  | PyInt z, PyFloat x | PyFloat x, PyInt z =>
      exists q, F.to_Q x = Some q /\ (q == inject_Z z)%Q
  end.

(** How numpy stores one component of [y0] in the trajectory: as it is, or
    an integer as the nearest double. *)
Definition stored_as (a c : pynum) : Prop :=
  c = a \/ exists z, a = PyInt z /\ c = PyFloat (F.of_Z z).

Definition all_int (y0 : list pynum) : Prop := Forall (fun a => is_int a = true) y0.
Definition all_float (y0 : list pynum) : Prop := Forall (fun a => is_int a = false) y0.

(** Some [i] with [t[i+1] <= t[i]]. *)
Definition non_increasing (t : fvec) : Prop :=
  exists i ti ti1, t !! i = Some ti /\ t !! S i = Some ti1 /\ PrimFloat.leb ti1 ti = true.

(** Integer components are machine integers. *)
Definition wf_state (y0 : list pynum) : Prop :=
  Forall (fun a => match a with PyInt z => in_int64 z | PyFloat _ => True end) y0.

(** The curves of a sequence of trajectories, drawn one after the other. *)
Fixpoint plot_all (t : fvec) (ens : list ndarray2) (ax : list line) : result (list line) :=
  match ens with
  | [] => Ok ax
  | y :: ens' =>
      let! ax' := plot_trajectory t y ax in
      plot_all t ens' ax'
  end.

(** ** Inputs used in the examples *)

(** A right-hand side with a constant derivative. *)
Definition f_const (d : fvec) : ndarray1 -> float -> unit -> result fvec :=
  fun _ _ _ => Ok d.

(** A right-hand side for states of length two whose derivative has length
    three at time [0.5] only. *)
Definition f_odd_at_half : ndarray1 -> float -> unit -> result fvec :=
  fun _ s _ => if PrimFloat.eqb s 0.5 then Ok [1; 2; 3]%float else Ok [1; 1]%float.

Definition kappa_demo : fvec :=
  [0.0216; 0.0291; 0.0214; 0.0047; 0.002]%float.

Definition t_demo : fvec := [0; 1.5; 3]%float.

Definition y0_int_demo : list pynum :=
  [PyInt 500; PyInt 0; PyInt 0; PyInt 0; PyInt 0; PyInt 0].

(** A sampler that returns the location and leaves the generator alone, and
    one that refuses every draw. *)
Definition rvs_loc : float -> float -> unit -> result (float * unit) :=
  fun loc _ g => Ok (loc, g).
Definition rvs_fail : float -> float -> unit -> result (float * unit) :=
  fun _ _ _ => Err ValueError.

(** A sampler with the argument check of [scipy.stats]: a scale that is
    neither positive nor zero is refused with [ValueError]; otherwise the
    draw is the location. *)
Definition rvs_checked : float -> float -> unit -> result (float * unit) :=
  fun loc scale g =>
    if PrimFloat.ltb 0 scale then Ok (loc, g)
    else if PrimFloat.eqb scale 0 then Ok (loc, g)
    else Err ValueError.

Definition marginals_bad_scale : marginals :=
  Marginals 1.359 (-1) 1.657 0.086 1.347 0.118 (-0.162) 0.167 (-1.009) 0.368.

Definition marginals_default : marginals :=
  Marginals 1.359 0.055 1.657 0.086 1.347 0.118 (-0.162) 0.167 (-1.009) 0.368.

(** ** The propagator in the specification's words *)

(** Every scale is positive. *)
Definition positive_scales (p : marginals) : Prop :=
  PrimFloat.ltb 0 (sig1 p) = true /\ PrimFloat.ltb 0 (sig2 p) = true /\
  PrimFloat.ltb 0 (sig3 p) = true /\ PrimFloat.ltb 0 (sig4 p) = true /\
  PrimFloat.ltb 0 (sig5 p) = true.

(** The six columns of a trajectory, in the order in which they are drawn. *)
Definition columns6 (y : ndarray2) : result (list ndarray1) :=
  traverse (column y) [0; 1; 2; 3; 4; 5].

Section SpecPropagator.
Variable rng : Type.
Variable norm_rvs : float -> float -> rng -> result (float * rng).
Variable np_exp : float -> float.

(** One parameter vector: one draw per marginal, in order, then the
    transform [k = exp(xi) / 180]. *)
Definition draw_parameters (p : marginals) (g : rng) : result (fvec * rng) :=
  let! (xi1, g) := norm_rvs (mu1 p) (sig1 p) g in
  let! (xi2, g) := norm_rvs (mu2 p) (sig2 p) g in
  let! (xi3, g) := norm_rvs (mu3 p) (sig3 p) g in
  let! (xi4, g) := norm_rvs (mu4 p) (sig4 p) g in
  let! (xi5, g) := norm_rvs (mu5 p) (sig5 p) g in
  Ok (map (fun x => F.div (np_exp x) 180%float) [xi1; xi2; xi3; xi4; xi5], g).

(** [propagate]: for each of [n] samples, draw a parameter vector and
    integrate with it; the ensemble holds the trajectories in sample
    order. *)
Fixpoint propagate (t : fvec) (p : marginals) (n : nat) (g : rng)
  : result (list ndarray2 * rng) :=
  match n with
  | O => Ok ([], g)
  | S n' =>
      let! (kappa, g1) := draw_parameters p g in
      let! y := rk45 f_catalysis kappa y0_catalysis t in
      let! (ens, g') := propagate t p n' g1 in
      Ok (y :: ens, g')
  end.
End SpecPropagator.

(** ** The calibration plot: [compare_model_to_data] *)


(** ** The integrator read row by row *)

(** The rows of an array, each with its element type. *)
Definition rows_of (y : ndarray2) : list ndarray1 :=
  match y with
  | IntArr rs => map IntVec rs
  | FloatArr rs => map FloatVec rs
  end.

Definition dtype1 (r : ndarray1) : dtype :=
  match r with IntVec _ => int64 | FloatVec _ => float64 end.

(** [y[:k]] and [y[k:]] along the first axis. *)
Definition take_rows (k : nat) (y : ndarray2) : ndarray2 :=
  match y with
  | IntArr rs => IntArr (take k rs)
  | FloatArr rs => FloatArr (take k rs)
  end.

Definition drop_rows (k : nat) (y : ndarray2) : ndarray2 :=
  match y with
  | IntArr rs => IntArr (drop k rs)
  | FloatArr rs => FloatArr (drop k rs)
  end.

Section Recurrence.
Context {Args : Type}.
Variable f : ndarray1 -> float -> Args -> result fvec.
Variable args : Args.
Variable b : weights5.

(** What pass [i] of the loop stores at [i + 1], as a function of the entry
    at [i] alone: the stages, the fourth-order sum, its broadcast to the
    length of a row, and the fifth-order sum, which can still raise. *)
Definition next_vec (t : fvec) (i : nat) (yi : ndarray1) : result fvec :=
  let! ti1 := index t (i + 1) in
  let! ti := index t i in
  let h := F.sub ti1 ti in
  let! (k1, k2, k3, k4, k5, k6) := stages f args yi ti h in
  let! y4 := Ok (as_float yi) ⊞ a1 ⋅ k1 ⊞ a3 ⋅ k3 ⊞ a4 ⋅ k4 ⊞ a5 ⋅ k5 in
  let! w := broadcast_to (len1 yi) y4 in
  let! y5 := Ok (as_float yi) ⊞ w1 b ⋅ k1 ⊞ w3 b ⋅ k3 ⊞ w4 b ⋅ k4
               ⊞ w5 b ⋅ k5 ⊞ w6 b ⋅ k6 in
  Ok w.

Definition next_row (t : fvec) (i : nat) (yi : ndarray1) : result ndarray1 :=
  rmap (cast (dtype1 yi)) (next_vec t i yi).

(** The entries [i .. i + k] of a trajectory whose entry [i] is [yi]. *)
Fixpoint rows_from (t : fvec) (i : nat) (yi : ndarray1) (k : nat)
  : result (list ndarray1) :=
  match k with
  | O => Ok [yi]
  | S k' =>
      let! yi1 := next_row t i yi in
      let! rest := rows_from t (S i) yi1 k' in
      Ok (yi :: rest)
  end.
End Recurrence.

(** An error is numpy's broadcast error or one that [f] raised. *)
Definition own_or_raised {Args : Type} (f : ndarray1 -> float -> Args -> result fvec)
    (args : Args) (e : exn) : Prop :=
  e = ValueError \/ exists y s, f y s args = Err e.

(** ** Results and vectors *)

Lemma bind_ok {A B} (m : result A) (k : A -> result B) b :
  bind m k = Ok b -> exists a, m = Ok a /\ k a = Ok b.
Proof. destruct m as [a|e]; simpl; [eauto | discriminate]. Qed.

Lemma index_lookup {A} (l : list A) i a : l !! i = Some a -> index l i = Ok a.
Proof. unfold index. now intros ->. Qed.

Lemma index_ok {A} (l : list A) i a : index l i = Ok a -> l !! i = Some a.
Proof. unfold index. destruct (l !! i); congruence. Qed.

Lemma index_lt {A} (l : list A) i : i < length l -> exists a, index l i = Ok a.
Proof.
  intros Hi. destruct (lookup_lt_is_Some_2 l i Hi) as [a Ha].
  exists a. now apply index_lookup.
Qed.

Lemma length_smul c k : length (c ⋅ k) = length k.
Proof. apply length_map. Qed.

Lemma length_vadd u v n : length u = n -> length v = n -> length (u ⊕ v) = n.
Proof. intros Hu Hv. unfold vadd. rewrite length_zip_with. lia. Qed.

Lemma radd_same u v n :
  length u = n -> length v = n -> Ok u ⊞ v = Ok (u ⊕ v).
Proof.
  intros Hu Hv. unfold radd, bc_add. simpl.
  replace (length u =? length v) with true; [reflexivity|].
  symmetry. apply Nat.eqb_eq. congruence.
Qed.

Lemma broadcast_to_same n v : length v = n -> broadcast_to n v = Ok v.
Proof. intros H. unfold broadcast_to. now rewrite (proj2 (Nat.eqb_eq _ _) H). Qed.

Lemma broadcast_to_length n v w : broadcast_to n v = Ok w -> length w = n.
Proof.
  unfold broadcast_to. destruct (length v =? n) eqn:E.
  - intros [= <-]. now apply Nat.eqb_eq.
  - destruct v as [|x [|]]; try discriminate.
    intros [= <-]. apply length_replicate.
Qed.

Lemma bc_add_len u v :
  match bc_len (length u) (length v) with
  | Some n => exists w, bc_add u v = Ok w /\ length w = n
  | None => bc_add u v = Err ValueError
  end.
Proof.
  unfold bc_len, bc_add. destruct (length u =? length v) eqn:E.
  - apply Nat.eqb_eq in E. eexists. split; [reflexivity|].
    rewrite length_zip_with. lia.
  - destruct u as [|x [|x' u]]; simpl in *.
    + destruct v as [|y [|y' v]]; simpl in *; try discriminate; eauto.
    + eexists. split; [reflexivity|]. apply length_map.
    + destruct v as [|y [|y' v]]; simpl in *; eauto.
      eexists. split; [reflexivity|]. simpl. now rewrite length_map.
Qed.

Lemma radd_same_shape s s' v v' :
  same_shape s s' -> length v = length v' -> same_shape (s ⊞ v) (s' ⊞ v').
Proof.
  destruct s as [u|e], s' as [u'|e']; simpl; try tauto.
  intros Hu Hv.
  pose proof (bc_add_len u v) as H. pose proof (bc_add_len u' v') as H'.
  rewrite <- Hu, <- Hv in H'.
  destruct (bc_len (length u) (length v)).
  - destruct H as (w & -> & Hw), H' as (w' & -> & Hw'). simpl. congruence.
  - rewrite H, H'. reflexivity.
Qed.

Lemma same_shape_bind {A} (s s' : result fvec) (r : result A) :
  same_shape s s' -> bind s (fun _ => r) = bind s' (fun _ => r).
Proof. destruct s, s'; simpl; intros H; try tauto. now subst. Qed.

(** ** Rows of an array *)

Lemma getrow_lt y i : i < nrows y -> exists r, getrow y i = Ok r.
Proof.
  destruct y as [rs|rs]; simpl; intros Hi;
    destruct (index_lt rs i Hi) as [r ->]; simpl; eauto.
Qed.

Lemma getrow_nrows y i r : getrow y i = Ok r -> i < nrows y.
Proof.
  destruct y as [rs|rs]; simpl; intros H; apply bind_ok in H as (a & Ha & _);
    apply index_ok in Ha; eapply lookup_lt_Some; eauto.
Qed.

Lemma setrow_put y i v w :
  setrow y i v = Ok w -> exists u, w = put_row y i u /\
    forall r, getrow y i = Ok r -> length u = len1 r.
Proof.
  destruct y as [rs|rs]; simpl; intros H;
    apply bind_ok in H as (old & Hold & H);
    apply bind_ok in H as (u & Hu & [= <-]);
    exists u; (split; [reflexivity|]);
    intros r Hr; rewrite Hold in Hr; simpl in Hr; injection Hr as <-; simpl;
    eapply broadcast_to_length; eauto.
Qed.

Lemma setrow_same y i v r :
  getrow y i = Ok r -> length v = len1 r -> setrow y i v = Ok (put_row y i v).
Proof.
  destruct y as [rs|rs]; simpl; intros H Hv;
    apply bind_ok in H as (old & Hold & [= <-]); simpl in Hv;
    rewrite Hold; simpl; rewrite (broadcast_to_same _ _ Hv); reflexivity.
Qed.

Lemma nrows_put y i w : nrows (put_row y i w) = nrows y.
Proof. destruct y; simpl; apply length_insert. Qed.

Lemma dtype_put y i w : dtype_of (put_row y i w) = dtype_of y.
Proof. now destruct y. Qed.

Lemma getrow_put_ne y i j w : i <> j -> getrow (put_row y i w) j = getrow y j.
Proof.
  intros Hne. destruct y as [rs|rs]; simpl; unfold index;
    now rewrite list_lookup_insert_ne.
Qed.

Lemma getrow_put_eq y i w :
  i < nrows y -> getrow (put_row y i w) i = Ok (cast (dtype_of y) w).
Proof.
  intros Hi. destruct y as [rs|rs]; simpl in *; unfold index;
    now rewrite list_lookup_insert_eq.
Qed.

Lemma len1_cast d w : len1 (cast d w) = length w.
Proof. destruct d; simpl; [apply length_map | reflexivity]. Qed.

Lemma length_as_float r : length (as_float r) = len1 r.
Proof. destruct r; simpl; [apply length_map | reflexivity]. Qed.

Lemma width_put y i w n : width y n -> length w = n -> width (put_row y i w) n.
Proof.
  intros Hy Hw j r Hr. destruct (decide (i = j)) as [<-|Hne].
  - assert (i < nrows y) as Hi.
    { rewrite <- (nrows_put y i w). eapply getrow_nrows; eauto. }
    rewrite (getrow_put_eq _ _ _ Hi) in Hr. injection Hr as <-.
    now rewrite len1_cast.
  - rewrite getrow_put_ne in Hr by assumption. eauto.
Qed.

(** ** The initial array *)

Lemma nrows_np_array_rep y0 n : nrows (np_array_rep y0 n) = n.
Proof.
  destruct n; [reflexivity|]. unfold np_array_rep.
  destruct (result_type y0); simpl; now rewrite length_replicate.
Qed.

Lemma getrow_np_array_rep y0 n i :
  i < n ->
  getrow (np_array_rep y0 n) i = Ok (np_array1 y0).
Proof.
  intros Hi. destruct n; [lia|]. unfold np_array_rep, np_array1. cbv beta iota.
  destruct (result_type y0); unfold getrow, index;
    now rewrite (lookup_replicate_2 _ _ _ Hi).
Qed.

Lemma width_np_array_rep y0 n : width (np_array_rep y0 n) (length y0).
Proof.
  intros i r Hr. pose proof (getrow_nrows _ _ _ Hr) as Hi.
  rewrite nrows_np_array_rep in Hi.
  rewrite (getrow_np_array_rep _ _ _ Hi) in Hr. injection Hr as <-.
  unfold np_array1. destruct (result_type y0); simpl; apply length_map.
Qed.

Lemma dtype_np_array_rep y0 n : 0 < n -> dtype_of (np_array_rep y0 n) = result_type y0.
Proof.
  intros Hn. destruct n; [lia|]. unfold np_array_rep.
  now destruct (result_type y0).
Qed.

(** ** One pass of the loop body *)

Lemma length_smul_n c k n : length k = n -> length (c ⋅ k) = n.
Proof. now rewrite length_smul. Qed.

Lemma length_as_float_n r n : len1 r = n -> length (as_float r) = n.
Proof. now rewrite length_as_float. Qed.

Create HintDb len.
#[local] Hint Resolve length_vadd length_smul_n length_as_float_n : len.

Ltac len := solve [simpl; eauto 20 with len].

Section Step.
Context {Args : Type}.
Variable f : ndarray1 -> float -> Args -> result fvec.
Variable args : Args.
Variable n : nat.
Hypothesis f_ok : shape_ok f args n.

(** Evaluate the next call of [f] in the goal through [f_ok]. *)
Ltac call_f :=
  match goal with
  | |- context [f ?y ?s args] =>
      let d := fresh "d" in
      let Hd := fresh "Hd" in
      let Ld := fresh "Ld" in
      destruct (f_ok y s) as (d & Hd & Ld);
      [ len
      | rewrite Hd; cbn [bind rmap]; rewrite ?(radd_same _ _ n) by len;
        cbn [bind rmap] ]
  end.

Lemma stages_ok yi ti h :
  len1 yi = n ->
  exists k1 k2 k3 k4 k5 k6,
    stages f args yi ti h = Ok (k1, k2, k3, k4, k5, k6) /\
    (length k1 = n /\ length k2 = n /\ length k3 = n /\
     length k4 = n /\ length k5 = n /\ length k6 = n) /\
    rkf45_fourth_order f args yi ti h =
      Ok (as_float yi ⊕ a1 ⋅ k1 ⊕ a3 ⋅ k3 ⊕ a4 ⋅ k4 ⊕ a5 ⋅ k5).
Proof.
  intros Hy. unfold stages, rkf45_fourth_order, stage.
  do 6 call_f.
  do 6 eexists. split; [reflexivity|]. split; [|reflexivity].
  repeat split; len.
Qed.

Lemma rk45_body_ok b t i y yi ti ti1 :
  width y n -> S i < nrows y ->
  getrow y i = Ok yi -> t !! i = Some ti -> t !! S i = Some ti1 ->
  exists v,
    rkf45_fourth_order f args yi ti (F.sub ti1 ti) = Ok v /\ length v = n /\
    rk45_body_with f args b t i y = Ok (put_row y (S i) v).
Proof.
  intros Hw Hi Hyi Hti Hti1.
  pose proof (Hw _ _ Hyi) as Hlen.
  destruct (stages_ok yi ti (F.sub ti1 ti) Hlen)
    as (k1 & k2 & k3 & k4 & k5 & k6 & Hst & (L1 & L2 & L3 & L4 & L5 & L6) & Hspec).
  eexists. split; [exact Hspec|]. split; [len|].
  unfold rk45_body_with. replace (i + 1) with (S i) by lia.
  rewrite (index_lookup _ _ _ Hti1), (index_lookup _ _ _ Hti). cbn [bind].
  rewrite Hyi. cbn [bind]. rewrite Hst. cbn [bind].
  rewrite !(radd_same _ _ n) by len. cbn [bind].
  destruct (getrow_lt y (S i) Hi) as [old Hold].
  rewrite (setrow_same _ _ _ _ Hold) by (rewrite (Hw _ _ Hold); len).
  cbn [bind]. rewrite getrow_put_ne by lia. rewrite Hyi. cbn [bind].
  rewrite !(radd_same _ _ n) by len. reflexivity.
Qed.
End Step.

(** ** The loop *)

Section Loop.
Context {Args : Type}.
Variable f : ndarray1 -> float -> Args -> result fvec.
Variable args : Args.

(** Case analysis on the computation at the head of the goal. *)
Ltac head_case :=
  match goal with
  | |- bind ?m _ = _ -> _ => destruct m; cbn [bind]; [|discriminate]
  | |- bind ?m _ = _ => destruct m; cbn [bind]; [|reflexivity]
  end.

Lemma rk45_body_put b t i y y' :
  rk45_body_with f args b t i y = Ok y' ->
  exists u, y' = put_row y (S i) u.
Proof.
  unfold rk45_body_with. replace (i + 1) with (S i) by lia.
  do 4 head_case.
  match goal with |- context [let '(_, _) := ?p in _] =>
    destruct p as [[[[[k1 k2] k3] k4] k5] k6] end.
  head_case.
  match goal with |- context [setrow y (S i) ?v] =>
    destruct (setrow y (S i) v) as [y1|] eqn:Hset; cbn [bind]; [|discriminate] end.
  do 2 head_case. intros [= <-].
  apply setrow_put in Hset as (u & -> & _). eauto.
Qed.

Lemma rk45_loop_prefix b t idx : forall y y' a,
  Forall (fun i => a <= i) idx ->
  rk45_loop_with f args b t idx y = Ok y' ->
  nrows y' = nrows y /\ forall j, j <= a -> getrow y' j = getrow y j.
Proof.
  induction idx as [|i idx IH]; intros y y' a Hidx; simpl.
  - intros [= <-]. auto.
  - intros H. apply bind_ok in H as (y1 & Hb & Hl).
    apply Forall_cons in Hidx as [Hi Hidx].
    destruct (rk45_body_put _ _ _ _ _ Hb) as [u ->].
    destruct (IH _ _ _ Hidx Hl) as [Hn Hj].
    split; [now rewrite Hn, nrows_put|].
    intros j Hja. rewrite (Hj j Hja). apply getrow_put_ne. lia.
Qed.

Lemma rk45_body_drop_y5 b t i y y' :
  rk45_body_with f args b t i y = Ok y' -> rk45_body_no_y5 f args t i y = Ok y'.
Proof.
  unfold rk45_body_with, rk45_body_no_y5.
  do 4 head_case.
  match goal with |- context [let '(_, _) := ?p in _] =>
    destruct p as [[[[[k1 k2] k3] k4] k5] k6] end.
  do 4 head_case. intros [= <-]. reflexivity.
Qed.

Lemma rk45_loop_drop_y5 b t idx : forall y y',
  rk45_loop_with f args b t idx y = Ok y' -> rk45_loop_no_y5 f args t idx y = Ok y'.
Proof.
  induction idx as [|i idx IH]; intros y y'; simpl; [easy|].
  intros H. apply bind_ok in H as (y1 & Hb & Hl).
  rewrite (rk45_body_drop_y5 _ _ _ _ _ Hb). simpl. eauto.
Qed.

Lemma rk45_body_weights b b' t i y :
  rk45_body_with f args b t i y = rk45_body_with f args b' t i y.
Proof.
  unfold rk45_body_with.
  do 4 head_case.
  match goal with |- context [let '(_, _) := ?p in _] =>
    destruct p as [[[[[k1 k2] k3] k4] k5] k6] end.
  do 3 head_case.
  apply same_shape_bind.
  repeat apply radd_same_shape; rewrite ?length_smul; reflexivity.
Qed.

Lemma rk45_loop_weights b b' t idx : forall y,
  rk45_loop_with f args b t idx y = rk45_loop_with f args b' t idx y.
Proof.
  induction idx as [|i idx IH]; intros y; simpl; [reflexivity|].
  rewrite (rk45_body_weights b b'). destruct (rk45_body_with f args b' t i y); simpl; auto.
Qed.

Variable n : nat.
Hypothesis f_ok : shape_ok f args n.

Lemma rk45_loop_ok b t k : forall a y,
  width y n -> length t = nrows y -> a + k < nrows y ->
  exists y',
    rk45_loop_with f args b t (seq a k) y = Ok y' /\
    nrows y' = nrows y /\ dtype_of y' = dtype_of y /\ width y' n /\
    (forall j, j <= a -> getrow y' j = getrow y j) /\
    (forall j yj tj tj1,
        a <= j < a + k -> getrow y' j = Ok yj ->
        t !! j = Some tj -> t !! S j = Some tj1 ->
        exists v, rkf45_fourth_order f args yj tj (F.sub tj1 tj) = Ok v /\
                  getrow y' (S j) = Ok (cast (dtype_of y) v)).
Proof.
  induction k as [|k IH]; intros a y Hw Ht Hak.
  - exists y. simpl. repeat split; auto. intros; lia.
  - destruct (getrow_lt y a) as [ya Hya]; [lia|].
    destruct (lookup_lt_is_Some_2 t a) as [ta Hta]; [lia|].
    destruct (lookup_lt_is_Some_2 t (S a)) as [ta1 Hta1]; [lia|].
    destruct (rk45_body_ok f args n f_ok b t a y ya ta ta1)
      as (v & Hv & Lv & Hb); auto; [lia|].
    set (y1 := put_row y (S a) v) in *.
    destruct (IH (S a) y1) as (y' & Hl & Hn & Hd & Hw' & Hpre & Hstep).
    { now apply width_put. }
    { unfold y1. now rewrite nrows_put. }
    { unfold y1. rewrite nrows_put. lia. }
    exists y'. cbn [seq rk45_loop_with]. rewrite Hb. cbn [bind].
    unfold y1 in *. rewrite nrows_put in Hn. rewrite dtype_put in Hd, Hstep.
    repeat split; auto.
    + intros j Hj. rewrite Hpre by lia. apply getrow_put_ne. lia.
    + intros j yj tj tj1 Hj Hyj Htj Htj1.
      destruct (decide (j = a)) as [->|Hne].
      * rewrite Hpre in Hyj by lia. rewrite getrow_put_ne in Hyj by lia.
        assert (yj = ya) as -> by congruence.
        assert (tj = ta) as -> by congruence.
        assert (tj1 = ta1) as -> by congruence.
        exists v. split; [assumption|].
        rewrite Hpre by lia. apply getrow_put_eq. lia.
      * apply (Hstep j yj tj tj1); auto. lia.
Qed.

(** The integrator on a right-hand side of the right shape. *)
Lemma rk45_with_ok b y0 t :
  length y0 = n -> 1 <= length t ->
  exists tr,
    rk45_with f args b y0 t = Ok tr /\
    nrows tr = length t /\ dtype_of tr = result_type y0 /\ width tr n /\
    getrow tr 0 = Ok (np_array1 y0) /\
    follows_rkf4_cast f args t tr.
Proof.
  intros Hy0 Ht. unfold rk45_with.
  destruct (rk45_loop_ok b t (length t - 1) 0 (np_array_rep y0 (length t)))
    as (tr & Hl & Hn & Hd & Hw & Hpre & Hstep).
  { rewrite <- Hy0. apply width_np_array_rep. }
  { now rewrite nrows_np_array_rep. }
  { rewrite nrows_np_array_rep. lia. }
  rewrite nrows_np_array_rep in Hn. rewrite dtype_np_array_rep in Hd, Hstep by lia.
  exists tr. repeat split; auto.
  { rewrite Hpre by lia. apply getrow_np_array_rep. lia. }
  intros i yi yi1 ti ti1 Hyi Hyi1 Hti Hti1.
  apply getrow_nrows in Hyi1 as Hi.
  destruct (Hstep i yi ti ti1) as (v & Hv & Hrow); auto; [lia|].
  exists v. split; [assumption|]. rewrite Hd. congruence.
Qed.
End Loop.

(** ** The cast to [int64] *)

Lemma Qtrunc_nonneg n d : (0 <= n)%Z -> Qtrunc (n # d) = (n / Zpos d)%Z.
Proof.
  intros Hn. unfold Qtrunc.
  replace (Qle_bool 0 (n # d)) with true; [reflexivity|].
  symmetry. apply Qle_bool_iff. unfold Qle. simpl. lia.
Qed.

Lemma Qtrunc_nonpos n d : (n <= 0)%Z -> Qtrunc (n # d) = (- (- n / Zpos d))%Z.
Proof.
  intros Hn. unfold Qtrunc. destruct (Qle_bool 0 (n # d)) eqn:E.
  - apply Qle_bool_iff in E. unfold Qle in E. simpl in E.
    assert (n = 0%Z) as -> by lia. reflexivity.
  - reflexivity.
Qed.

Lemma float_to_int64_Qtrunc x q :
  F.to_Q x = Some q -> in_int64 (Qtrunc q) -> float_to_int64 x = Qtrunc q.
Proof.
  unfold F.to_Q, float_to_int64, in_int64.
  destruct (Prim2SF x) as [s|s| |s m e]; try discriminate.
  - intros [= <-] _. reflexivity.
  - intros [= <-] Hr.
    assert (forall z, (int64_min <= z <= int64_max)%Z ->
              (if (int64_min <=? z)%Z && (z <=? int64_max)%Z then z else int64_min) = z)
      as Hfit.
    { intros z Hz. destruct (Z.leb_spec int64_min z), (Z.leb_spec z int64_max);
        simpl; lia. }
    assert (forall p, (0 < 2 ^ Z.pos p)%Z) as Hpow.
    { intros p. apply Z.pow_pos_nonneg; lia. }
    destruct e as [|p|p], s; cbv zeta;
      try change (Z.pow_pos 2 ?p) with (2 ^ Z.pos p)%Z in *;
      rewrite ?Z.shiftl_mul_pow2, ?Z.shiftr_div_pow2 by lia;
      rewrite ?Pos2Z.inj_pow in *.
    + rewrite Qtrunc_nonpos in * by lia. rewrite Z.div_1_r in *. now apply Hfit.
    + rewrite Qtrunc_nonneg in * by lia. rewrite Z.div_1_r in *. now apply Hfit.
    + specialize (Hpow p).
      rewrite Qtrunc_nonpos in * by nia. rewrite Z.div_1_r in *.
      replace (- (Z.neg m * 2 ^ Z.pos p))%Z with (Z.pos m * 2 ^ Z.pos p)%Z in * by lia.
      now apply Hfit.
    + specialize (Hpow p).
      rewrite Qtrunc_nonneg in * by nia. rewrite Z.div_1_r in *. now apply Hfit.
    + rewrite Qtrunc_nonpos in * by lia. rewrite Pos2Z.inj_pow in *.
      now apply Hfit.
    + rewrite Qtrunc_nonneg in * by lia. rewrite Pos2Z.inj_pow in *.
      now apply Hfit.
Qed.

Lemma float_to_int64_indefinite x :
  (F.to_Q x = None \/ exists q, F.to_Q x = Some q /\ ~ in_int64 (Qtrunc q)) ->
  float_to_int64 x = int64_min.
Proof.
  unfold F.to_Q, float_to_int64, in_int64.
  destruct (Prim2SF x) as [s|s| |s m e].
  - intros [H|(q & [= <-] & Hq)]; [discriminate|].
    exfalso. apply Hq. vm_compute. split; discriminate.
  - reflexivity.
  - reflexivity.
  - intros [H|(q & [= <-] & Hr)]; [discriminate|].
    assert (forall z, ~ (int64_min <= z <= int64_max)%Z ->
              (if (int64_min <=? z)%Z && (z <=? int64_max)%Z then z else int64_min)
              = int64_min) as Hout.
    { intros z Hz. destruct (Z.leb_spec int64_min z), (Z.leb_spec z int64_max);
        simpl; lia. }
    assert (forall p, (0 < 2 ^ Z.pos p)%Z) as Hpow.
    { intros p. apply Z.pow_pos_nonneg; lia. }
    destruct e as [|p|p], s; cbv zeta;
      try change (Z.pow_pos 2 ?p) with (2 ^ Z.pos p)%Z in *;
      rewrite ?Z.shiftl_mul_pow2, ?Z.shiftr_div_pow2 by lia;
      rewrite ?Pos2Z.inj_pow in *.
    + rewrite Qtrunc_nonpos in * by lia. rewrite Z.div_1_r in *. now apply Hout.
    + rewrite Qtrunc_nonneg in * by lia. rewrite Z.div_1_r in *. now apply Hout.
    + specialize (Hpow p).
      rewrite Qtrunc_nonpos in * by nia. rewrite Z.div_1_r in *.
      replace (- (Z.neg m * 2 ^ Z.pos p))%Z with (Z.pos m * 2 ^ Z.pos p)%Z in * by lia.
      now apply Hout.
    + specialize (Hpow p).
      rewrite Qtrunc_nonneg in * by nia. rewrite Z.div_1_r in *. now apply Hout.
    + rewrite Qtrunc_nonpos in * by lia. rewrite Pos2Z.inj_pow in *.
      now apply Hout.
    + rewrite Qtrunc_nonneg in * by lia. rewrite Pos2Z.inj_pow in *.
      now apply Hout.
Qed.

(** ** The catalysis right-hand side *)

Lemma f_catalysis_shape_ok kappa : length kappa = 5 -> shape_ok f_catalysis kappa 6.
Proof.
  intros Hk y s Hy.
  destruct kappa as [|k1 [|k2 [|k3 [|k4 [|k5 [|]]]]]]; try discriminate.
  apply length_as_float_n in Hy.
  unfold f_catalysis, item.
  destruct (as_float y) as [|y0 [|y1 [|y2 [|y3 [|y4 [|y5 [|]]]]]]]; try discriminate.
  eexists. split; reflexivity.
Qed.

(** C8: on a state of six components and a parameter vector of five,
    [f_catalysis] returns the derivative of the linear dynamics,
    [[-k1*y0, k1*y0 - (k2+k4+k5)*y1, k2*y1 - k3*y2, k3*y2, k4*y1, k5*y1]],
    whatever the time; it is a function of its arguments and leaves [y] as
    it is. *)
Theorem f_catalysis_rhs (y0 y1 y2 y3 y4 y5 t k1 k2 k3 k4 k5 : float) :
  f_catalysis (FloatVec [y0; y1; y2; y3; y4; y5]) t [k1; k2; k3; k4; k5] =
    Ok [ - k1 * y0;
         k1 * y0 - (k2 + k4 + k5) * y1;
         k2 * y1 - k3 * y2;
         k3 * y2;
         k4 * y1;
         k5 * y1 ]%float.
Proof. reflexivity. Qed.

(** ** Grids of fewer than two points *)

Lemma rk45_short_grid {Args} (f : ndarray1 -> float -> Args -> result fvec) args b y0 t :
  length t < 2 -> rk45_with f args b y0 t = Ok (np_array_rep y0 (length t)).
Proof.
  intros Ht. unfold rk45_with.
  destruct t as [|t0 [|t1 t]]; simpl in *; [reflexivity | reflexivity | lia].
Qed.

(** C3, as the code has it: on a time grid of fewer than two points the
    integrator raises nothing; it never calls [f], and returns the initial
    array, [len(t)] copies of [y0]. *)
Theorem rk45_short_grid_returns {Args} (f : ndarray1 -> float -> Args -> result fvec)
    args y0 t :
  length t < 2 ->
  rk45 f args y0 t = Ok (np_array_rep y0 (length t)) /\
  nrows (np_array_rep y0 (length t)) = length t.
Proof.
  intros Ht. split; [now apply rk45_short_grid | apply nrows_np_array_rep].
Qed.

Lemma rk45_short_grid_returns_witness :
  rk45 (fun _ _ (_ : unit) => Err (Raised 1)) tt [PyFloat 1; PyFloat 2] [0%float]
    = Ok (FloatArr [[1; 2]%float]) /\
  nrows (FloatArr [[1; 2]%float]) = 1.
Proof.
  apply (rk45_short_grid_returns (fun _ _ (_ : unit) => Err (Raised 1)) tt
           [PyFloat 1; PyFloat 2] [0%float]).
  simpl. lia.
Defined.

(** C3 fails on the code: a grid of one point, and the empty grid, give a
    trajectory and no error. *)
Lemma rk45_short_grid_no_error :
  rk45 (f_const [1%float]) tt [PyFloat 1] [0%float] = Ok (FloatArr [[1%float]]) /\
  rk45 (f_const [1%float]) tt [PyFloat 1] [] = Ok (FloatArr []).
Proof. split; reflexivity. Qed.

(** ** Grids that do not increase *)

Lemma non_increasing_length t : non_increasing t -> 2 <= length t.
Proof.
  intros (i & ti & ti1 & _ & H & _). apply lookup_lt_Some in H. lia.
Qed.

(** C4, as the code has it: the integrator does not look at the order of
    the time grid.  On a grid with some [t[i+1] <= t[i]] it returns, for a
    right-hand side of the state's length, a trajectory of [len(t)] entries,
    each advanced from the one before over [h = t[i+1] - t[i]], whatever
    the sign of [h]. *)
Theorem rk45_non_increasing_grid {Args} (f : ndarray1 -> float -> Args -> result fvec)
    args y0 t :
  non_increasing t -> shape_ok f args (length y0) ->
  exists tr, rk45 f args y0 t = Ok tr /\ nrows tr = length t /\
             follows_rkf4_cast f args t tr.
Proof.
  intros Ht Hf. apply non_increasing_length in Ht.
  destruct (rk45_with_ok f args (length y0) Hf b_weights y0 t)
    as (tr & Hr & Hn & _ & _ & _ & Hs); [reflexivity | lia |].
  exists tr. auto.
Qed.

Lemma f_const_shape_ok d : shape_ok (f_const d) tt (length d).
Proof. intros y s _. exists d. split; reflexivity. Qed.

Lemma non_increasing_demo : non_increasing [1; 0]%float.
Proof. exists 0, 1%float, 0%float. repeat split. Qed.

Lemma rk45_non_increasing_grid_witness :
  exists tr, rk45 (f_const [0%float]) tt [PyFloat 1] [1; 0]%float = Ok tr /\
             nrows tr = 2 /\
             follows_rkf4_cast (f_const [0%float]) tt [1; 0]%float tr.
Proof.
  apply (rk45_non_increasing_grid (f_const [0%float]) tt [PyFloat 1] [1; 0]%float).
  - exact non_increasing_demo.
  - exact (f_const_shape_ok [0%float]).
Defined.

(** C4 fails on the code: the decreasing grid [[1, 0]] gives a trajectory
    and no error. *)
Lemma rk45_decreasing_grid_no_error :
  non_increasing [1; 0]%float /\
  rk45 (f_const [0%float]) tt [PyFloat 1] [1; 0]%float
    = Ok (FloatArr [[1%float]; [1%float]]).
Proof. split; [exact non_increasing_demo | vm_compute; reflexivity]. Qed.

(** ** Derivatives of another length *)

(** When the lengths of the state and of the first derivative differ and
    neither is one, the first sum of the first step raises. *)
Lemma rk45_first_sum_mismatch {Args} (f : ndarray1 -> float -> Args -> result fvec)
    args y0 t t0 d :
  2 <= length t -> t !! 0 = Some t0 ->
  f (np_array1 y0) t0 args = Ok d ->
  length d <> length y0 -> length d <> 1 -> length y0 <> 1 ->
  rk45 f args y0 t = Err ValueError.
Proof.
  intros Ht Ht0 Hd Hne Hd1 Hy1.
  destruct t as [|t0' [|t1 t]]; simpl in Ht; try lia.
  injection Ht0 as ->.
  unfold rk45, rk45_with.
  change (seq 0 (length (t0 :: t1 :: t) - 1)) with (0 :: seq 1 (length t)).
  cbn [rk45_loop_with]. unfold rk45_body_with at 1.
  cbn [index lookup list_lookup Nat.add bind].
  rewrite getrow_np_array_rep by (simpl; lia). cbn [bind].
  unfold stages, stage. rewrite Hd. cbn [bind rmap].
  pose proof (bc_add_len (as_float (np_array1 y0)) (c21 ⋅ (F.sub t1 t0 ⋅ d))) as Hadd.
  rewrite !length_smul, length_as_float in Hadd.
  assert (len1 (np_array1 y0) = length y0) as Hlen.
  { unfold np_array1. destruct (result_type y0); simpl; apply length_map. }
  rewrite Hlen in Hadd. unfold bc_len in Hadd.
  destruct (Nat.eqb_spec (length y0) (length d)); [congruence|].
  destruct (Nat.eqb_spec (length y0) 1); [congruence|].
  destruct (Nat.eqb_spec (length d) 1); [congruence|].
  unfold radd at 1. cbn [bind]. rewrite Hadd. reflexivity.
Qed.

(** C5 fails on the code: a derivative of length one is broadcast over a
    state of length two, and a trajectory is returned. *)
Lemma rk45_broadcast_no_error :
  length [0.5%float] <> length [PyFloat 1; PyFloat 2] /\
  rk45 (f_const [0.5%float]) tt [PyFloat 1; PyFloat 2] [0; 1]%float
    = Ok (FloatArr [[1; 2]; [1.4999999999999998; 2.5]]%float).
Proof. split; [simpl; lia | vm_compute; reflexivity]. Qed.

(** ** The sample loop with no sample *)

(** C6, as the code has it: with [num_samples < 1] the loop body never
    runs; [plot_samples] raises nothing, draws no sample and leaves the
    generator and the axes as they were. *)
Theorem plot_samples_no_sample (rng : Type) norm_rvs np_exp p (num_samples : Z)
    (w : world rng) :
  (num_samples < 1)%Z ->
  plot_samples rng norm_rvs np_exp p num_samples w = Ok w.
Proof.
  intros Hn. unfold plot_samples.
  replace (Z.to_nat num_samples) with 0 by lia. reflexivity.
Qed.

Lemma plot_samples_no_sample_witness :
  plot_samples unit rvs_loc (fun x => x) marginals_default (-3) (World tt [])
    = Ok (World tt []).
Proof.
  apply (plot_samples_no_sample unit rvs_loc (fun x => x) marginals_default (-3)).
  lia.
Defined.

(** C6 fails on the code: zero samples give no error. *)
Lemma plot_samples_zero_no_error :
  plot_samples unit rvs_fail (fun x => x) marginals_default 0 (World tt [])
    = Ok (World tt []).
Proof. reflexivity. Qed.

(** ** The recurrence on a trajectory of doubles *)

Lemma rk45_float_ok {Args} (f : ndarray1 -> float -> Args -> result fvec) args b y0 t :
  result_type y0 = float64 -> shape_ok f args (length y0) -> 1 <= length t ->
  exists rows,
    rk45_with f args b y0 t = Ok (FloatArr rows) /\ length rows = length t /\
    rows !! 0 = Some (map float_of y0) /\
    follows_rkf4 f args t (FloatArr rows).
Proof.
  intros Hty Hf Ht.
  destruct (rk45_with_ok f args (length y0) Hf b y0 t)
    as (tr & Hr & Hn & Hd & _ & H0 & Hs); [reflexivity | lia |].
  rewrite Hty in Hd. destruct tr as [rows|rows]; [discriminate|].
  exists rows. repeat split; auto.
  - unfold np_array1 in H0. rewrite Hty in H0. simpl in H0.
    apply bind_ok in H0 as (r & Hr0 & [= <-]). now apply index_ok.
  - intros i yi yi1 ti ti1 Hyi Hyi1 Hti Hti1.
    destruct (Hs i yi yi1 ti ti1) as (v & Hv & ->); auto.
Qed.

Lemma tableau_close : Forall (fun p => close_to p.1 p.2 = true) tableau.
Proof. unfold tableau. repeat constructor; vm_compute; reflexivity. Qed.

Lemma demo_int_run :
  rk45 (f_const [0.5%float]) tt [PyInt 1] [0; 1]%float = Ok (IntArr [[1%Z]; [1%Z]]).
Proof. vm_compute. reflexivity. Qed.

Lemma demo_int_estimate :
  rkf45_fourth_order (f_const [0.5%float]) tt (IntVec [1%Z]) 0 (F.sub 1 0)
    = Ok [1.4999999999999998%float].
Proof. vm_compute. reflexivity. Qed.

(** C1, as the code has it: when [y0] has a float component (so that the
    trajectory holds doubles) and [f] returns derivatives of the state's
    length, the integrator returns [len(t)] entries and each entry after
    the first is the fourth-order estimate advanced from the entry before
    it over [h = t[i+1] - t[i]]: six stage evaluations of [f], all with the
    same [args], combined with the weights of [k1], [k3], [k4], [k5] and no
    term in [k2].  The coefficients are the literals of the code, which are
    the fractions of the classical tableau to within one part in [10^15]. *)
Theorem rk45_float_follows_rkf4 {Args} (f : ndarray1 -> float -> Args -> result fvec)
    args y0 t :
  result_type y0 = float64 -> shape_ok f args (length y0) -> 2 <= length t ->
  exists rows,
    rk45 f args y0 t = Ok (FloatArr rows) /\ length rows = length t /\
    follows_rkf4 f args t (FloatArr rows) /\
    Forall (fun p => close_to p.1 p.2 = true) tableau.
Proof.
  intros Hty Hf Ht.
  destruct (rk45_float_ok f args b_weights y0 t Hty Hf) as (rows & Hr & Hn & _ & Hs);
    [lia|].
  exists rows. repeat split; auto. apply tableau_close.
Qed.

Lemma rk45_float_follows_rkf4_witness :
  exists rows,
    rk45 f_catalysis kappa_demo y0_catalysis t_demo = Ok (FloatArr rows) /\
    length rows = 3 /\
    follows_rkf4 f_catalysis kappa_demo t_demo (FloatArr rows) /\
    Forall (fun p => close_to p.1 p.2 = true) tableau.
Proof.
  apply (rk45_float_follows_rkf4 f_catalysis kappa_demo y0_catalysis t_demo).
  - reflexivity.
  - apply f_catalysis_shape_ok. reflexivity.
  - simpl. lia.
Defined.

(** C1 fails on the code: from the integer state [[1]] with derivative
    [0.5] over a unit step the estimate is about [1.5], and the entry the
    integrator returns is [1]. *)
Lemma rk45_int_state_breaks_rkf4 :
  rk45 (f_const [0.5%float]) tt [PyInt 1] [0; 1]%float = Ok (IntArr [[1%Z]; [1%Z]]) /\
  ~ follows_rkf4 (f_const [0.5%float]) tt [0; 1]%float (IntArr [[1%Z]; [1%Z]]).
Proof.
  split; [exact demo_int_run|].
  intros H.
  specialize (H 0 (IntVec [1%Z]) (IntVec [1%Z]) 0%float 1%float
                eq_refl eq_refl eq_refl eq_refl).
  rewrite demo_int_estimate in H.
  apply (f_equal (fun r => match r with
                           | Ok (x :: _) => PrimFloat.eqb x 1
                           | _ => true
                           end)) in H.
  vm_compute in H. discriminate H.
Qed.

(** ** The first entry *)

Lemma items_np_array1_stored y0 : Forall2 stored_as y0 (items (np_array1 y0)).
Proof.
  unfold np_array1, result_type. destruct y0 as [|a0 y0']; [constructor|].
  generalize (a0 :: y0'). clear a0 y0'. intros y0.
  destruct (forallb is_int y0) eqn:E; simpl.
  - induction y0 as [|a y0 IH]; simpl in *; constructor.
    + destruct a; [now left | discriminate].
    + apply IH. destruct (is_int a); [assumption | discriminate].
  - clear E.
    induction y0 as [|a y0 IH]; simpl; constructor; auto.
    destruct a as [z|x]; [right; eauto | now left].
Qed.

Lemma forallb_all_int y0 : all_int y0 -> forallb is_int y0 = true.
Proof.
  induction 1 as [|x l Hx _ IH]; simpl; [reflexivity|]. now rewrite Hx.
Qed.

Lemma result_type_all_int y0 : all_int y0 -> y0 <> [] -> result_type y0 = int64.
Proof.
  intros Hall Hne. unfold result_type. destruct y0 as [|a y0]; [congruence|].
  now rewrite (forallb_all_int _ Hall).
Qed.

Lemma result_type_some_float y0 :
  Exists (fun a => is_int a = false) y0 -> result_type y0 = float64.
Proof.
  intros Hex. unfold result_type. destruct y0 as [|a y0]; [reflexivity|].
  destruct (forallb is_int (a :: y0)) eqn:E; [|reflexivity].
  exfalso. induction Hex as [x l Hx|x l _ IH]; simpl in E.
  - rewrite Hx in E. discriminate.
  - destruct (is_int x); [auto | discriminate].
Qed.

Lemma items_all_float y0 : all_float y0 -> map PyFloat (map float_of y0) = y0.
Proof.
  induction 1 as [|x l Hx _ IH]; simpl; [reflexivity|].
  rewrite IH. destruct x; [discriminate | reflexivity].
Qed.

Lemma items_all_int y0 : all_int y0 -> map PyInt (map int_of y0) = y0.
Proof.
  induction 1 as [|x l Hx _ IH]; simpl; [reflexivity|].
  rewrite IH. destruct x; [reflexivity | discriminate].
Qed.

Lemma items_np_array1_same y0 :
  all_float y0 \/ all_int y0 -> items (np_array1 y0) = y0.
Proof.
  destruct y0 as [|a y0]; [reflexivity|]. unfold np_array1. intros [Hfl|Hint].
  - rewrite result_type_some_float.
    + now apply items_all_float.
    + apply Exists_cons_hd. now apply Forall_cons in Hfl as [Ha _].
  - rewrite result_type_all_int by (auto; congruence).
    now apply items_all_int.
Qed.

(** C2, as the code has it: entry 0 of the returned trajectory is
    [np.array(y0)] and no step writes to it.  It equals [y0] component for
    component, bit for bit, when the components of [y0] are all floats or
    all integers; when [y0] mixes the two, its floats are kept bit for bit
    and each of its integers is stored as the nearest double. *)
Theorem rk45_entry0 {Args} (f : ndarray1 -> float -> Args -> result fvec) args y0 t :
  wf_state y0 -> 2 <= length t ->
  (shape_ok f args (length y0) -> exists tr, rk45 f args y0 t = Ok tr) /\
  (forall tr, rk45 f args y0 t = Ok tr ->
     exists r0, getrow tr 0 = Ok r0 /\
                Forall2 stored_as y0 (items r0) /\
                (all_float y0 \/ all_int y0 -> items r0 = y0)).
Proof.
  intros _ Ht. split.
  - intros Hf.
    destruct (rk45_with_ok f args (length y0) Hf b_weights y0 t)
      as (tr & Hr & _); [reflexivity | lia |]. eauto.
  - intros tr Hr. unfold rk45, rk45_with in Hr.
    apply rk45_loop_prefix with (a := 0) in Hr as [_ Hpre].
    2:{ apply Forall_forall. intros; lia. }
    exists (np_array1 y0). split.
    + rewrite Hpre by lia. apply getrow_np_array_rep. lia.
    + split; [apply items_np_array1_stored | apply items_np_array1_same].
Qed.

Lemma rk45_entry0_witness :
  exists tr r0,
    rk45 f_catalysis kappa_demo y0_catalysis t_demo = Ok tr /\
    getrow tr 0 = Ok r0 /\ items r0 = y0_catalysis.
Proof.
  destruct (rk45_entry0 f_catalysis kappa_demo y0_catalysis t_demo) as [Hex Hall].
  - repeat constructor.
  - simpl. lia.
  - destruct Hex as [tr Htr]; [apply f_catalysis_shape_ok; reflexivity|].
    destruct (Hall tr Htr) as (r0 & H0 & _ & Hsame).
    exists tr, r0. repeat split; auto.
    apply Hsame. left. repeat constructor.
Defined.

(** C2 fails on the code: in [y0 = (2^53 + 1, 0.5)] the integer has no
    double of its value, and entry 0 holds [2^53]. *)
Lemma rk45_mixed_state_entry0 :
  rk45 (f_const [0; 0]%float) tt [PyInt 9007199254740993; PyFloat 0.5] [0; 1]%float
    = Ok (FloatArr [[9007199254740992; 0.5]; [9007199254740992; 0.5]]%float) /\
  ~ Forall2 same_number [PyInt 9007199254740993; PyFloat 0.5]
      (items (FloatVec [9007199254740992; 0.5]%float)).
Proof.
  split; [vm_compute; reflexivity|].
  intros H. simpl in H. apply Forall2_cons in H as [(q & Hq & Heq) _].
  vm_compute in Hq. injection Hq as <-.
  unfold Qeq in Heq. simpl in Heq. lia.
Qed.

(** ** The fifth-order combination *)

(** C7: for a right-hand side of the state's length and a time grid of at
    least two points, the trajectory [rk45] returns has one entry per time
    point, each advanced from the one before it by a single step; it is the
    trajectory of the integrator without the line that computes [y5], and
    it is the same for every choice of the weights [b1], [b3], [b4], [b5],
    [b6]. *)
Theorem rk45_y5_unused {Args} (f : ndarray1 -> float -> Args -> result fvec) args y0 t :
  shape_ok f args (length y0) -> 2 <= length t ->
  exists tr,
    rk45 f args y0 t = Ok tr /\
    rk45_no_y5 f args y0 t = Ok tr /\
    (forall b, rk45_with f args b y0 t = Ok tr) /\
    nrows tr = length t /\ follows_rkf4_cast f args t tr.
Proof.
  intros Hf Ht.
  destruct (rk45_with_ok f args (length y0) Hf b_weights y0 t)
    as (tr & Hr & Hn & _ & _ & _ & Hs); [reflexivity | lia |].
  exists tr. repeat split; auto.
  - unfold rk45_with in Hr. now apply rk45_loop_drop_y5 in Hr.
  - intros b. unfold rk45_with in *. now rewrite (rk45_loop_weights f args b b_weights).
Qed.

Lemma rk45_y5_unused_witness :
  exists tr,
    rk45 f_catalysis kappa_demo y0_catalysis t_demo = Ok tr /\
    rk45_no_y5 f_catalysis kappa_demo y0_catalysis t_demo = Ok tr /\
    (forall b, rk45_with f_catalysis kappa_demo b y0_catalysis t_demo = Ok tr) /\
    nrows tr = 3 /\ follows_rkf4_cast f_catalysis kappa_demo t_demo tr.
Proof.
  apply (rk45_y5_unused f_catalysis kappa_demo y0_catalysis t_demo).
  - apply f_catalysis_shape_ok. reflexivity.
  - simpl. lia.
Defined.

(** Outside such inputs the line is not inert: when only the sixth
    evaluation of [f] has another length, the sum for [y5] raises after the
    entry has been written, and the integrator without that line returns. *)
Lemma rk45_y5_can_raise :
  rk45 f_odd_at_half tt [PyFloat 0; PyFloat 0] [0; 1]%float = Err ValueError /\
  rk45_no_y5 f_odd_at_half tt [PyFloat 0; PyFloat 0] [0; 1]%float
    = Ok (FloatArr [[0; 0]; [1; 1]]%float).
Proof. split; vm_compute; reflexivity. Qed.

(** ** Integer initial states *)

(** C10, as the code has it: the trajectory has the element type of
    [y0].  When every component of a non-empty [y0] is an integer that
    fits [int64], the trajectory holds integers: each entry after the first
    is the fourth-order estimate advanced from the entry before it with
    every component cast to [int64], and nothing is raised.  The cast
    drops the fractional part (rounds toward zero) of every value whose
    integer part fits [int64]; a NaN, an infinity and every other value
    are stored as [-2^63].  So the trajectory can differ from the
    recurrence in doubles, as from [y0 = [1]] with derivative [0.5].  When
    [y0] has a float component the trajectory holds doubles and follows the
    recurrence as it is. *)
Theorem rk45_int_state_truncates {Args} (f : ndarray1 -> float -> Args -> result fvec)
    args y0 t :
  wf_state y0 -> shape_ok f args (length y0) -> 2 <= length t ->
  (all_int y0 -> y0 <> [] ->
   exists rows,
     rk45 f args y0 t = Ok (IntArr rows) /\ length rows = length t /\
     rows !! 0 = Some (map int_of y0) /\
     forall i yi yi1 ti ti1,
       rows !! i = Some yi -> rows !! S i = Some yi1 ->
       t !! i = Some ti -> t !! S i = Some ti1 ->
       exists v, rkf45_fourth_order f args (IntVec yi) ti (F.sub ti1 ti) = Ok v /\
                 yi1 = map float_to_int64 v) /\
  (Exists (fun a => is_int a = false) y0 ->
   exists rows,
     rk45 f args y0 t = Ok (FloatArr rows) /\ length rows = length t /\
     follows_rkf4 f args t (FloatArr rows)) /\
  (forall x q, F.to_Q x = Some q -> in_int64 (Qtrunc q) ->
               float_to_int64 x = Qtrunc q) /\
  (forall x, (F.to_Q x = None \/
              exists q, F.to_Q x = Some q /\ ~ in_int64 (Qtrunc q)) ->
             float_to_int64 x = int64_min) /\
  (rk45 (f_const [0.5%float]) tt [PyInt 1] [0; 1]%float = Ok (IntArr [[1%Z]; [1%Z]]) /\
   rkf45_fourth_order (f_const [0.5%float]) tt (IntVec [1%Z]) 0 (F.sub 1 0)
     = Ok [1.4999999999999998%float]).
Proof.
  intros _ Hf Ht. split; [|split; [|split; [|split]]].
  - intros Hint Hne.
    destruct (rk45_with_ok f args (length y0) Hf b_weights y0 t)
      as (tr & Hr & Hn & Hd & _ & H0 & Hs); [reflexivity | lia |].
    rewrite (result_type_all_int _ Hint Hne) in Hd.
    destruct tr as [rows|rows]; [|discriminate].
    exists rows. repeat split; auto.
    + unfold np_array1 in H0. rewrite (result_type_all_int _ Hint Hne) in H0.
      simpl in H0. apply bind_ok in H0 as (r & Hr0 & [= <-]). now apply index_ok.
    + intros i yi yi1 ti ti1 Hyi Hyi1 Hti Hti1.
      destruct (Hs i (IntVec yi) (IntVec yi1) ti ti1) as (v & Hv & Hc); auto.
      * simpl. now rewrite (index_lookup _ _ _ Hyi).
      * simpl. now rewrite (index_lookup _ _ _ Hyi1).
      * exists v. split; [assumption|]. simpl in Hc. congruence.
  - intros Hfl.
    destruct (rk45_float_ok f args b_weights y0 t (result_type_some_float _ Hfl) Hf)
      as (rows & Hr & Hn & _ & Hs); [lia|].
    exists rows. auto.
  - apply float_to_int64_Qtrunc.
  - apply float_to_int64_indefinite.
  - split; [exact demo_int_run | exact demo_int_estimate].
Qed.

Lemma rk45_int_state_truncates_witness :
  exists rows,
    rk45 f_catalysis kappa_demo y0_int_demo t_demo = Ok (IntArr rows) /\
    length rows = 3 /\ rows !! 0 = Some [500; 0; 0; 0; 0; 0]%Z.
Proof.
  destruct (rk45_int_state_truncates f_catalysis kappa_demo y0_int_demo t_demo)
    as (Hint & _).
  - repeat constructor; unfold in_int64, int64_min, int64_max; lia.
  - apply f_catalysis_shape_ok. reflexivity.
  - simpl. lia.
  - destruct Hint as (rows & Hr & Hn & H0 & _).
    + repeat constructor.
    + discriminate.
    + exists rows. auto.
Defined.

(** C10 fails on the code: from the integer state [[1]] with derivative
    [1e30] over a unit step the estimate is [1e30]; rounded toward zero it
    is a positive integer, and the entry the integrator stores is
    [-2^63]. *)
Lemma rk45_int_state_overflow :
  rk45 (f_const [1e30%float]) tt [PyInt 1] [0; 1]%float
    = Ok (IntArr [[1%Z]; [(-9223372036854775808)%Z]]) /\
  rkf45_fourth_order (f_const [1e30%float]) tt (IntVec [1%Z]) 0 (F.sub 1 0)
    = Ok [1e30%float] /\
  F.to_Q 1e30%float = Some (1000000000000000019884624838656 # 1)%Q /\
  Qtrunc (1000000000000000019884624838656 # 1) <> (-9223372036854775808)%Z.
Proof.
  split; [vm_compute; reflexivity|].
  split; [vm_compute; reflexivity|].
  split; [vm_compute; reflexivity|].
  vm_compute. discriminate.
Qed.

(** ** The ensemble of [plot_samples] *)

Lemma traverse_index {A} (rs : list (list A)) k n :
  Forall (fun r => length r = n) rs -> k < n ->
  exists cs, traverse (fun r => index r k) rs = Ok cs /\ length cs = length rs.
Proof.
  intros Hrs Hk. induction Hrs as [|r rs Hr _ IH]; simpl.
  - exists []. auto.
  - destruct (index_lt r k) as [a Ha]; [lia|]. rewrite Ha. simpl.
    destruct IH as (cs & -> & Hcs). simpl. eexists. split; [reflexivity|].
    simpl. now rewrite Hcs.
Qed.

Lemma column_ok y k n :
  width y n -> 0 < nrows y -> k < n ->
  exists c, column y k = Ok c /\ len1 c = nrows y.
Proof.
  intros Hw Hn Hk. unfold width in Hw. destruct y as [rs|rs]; cbn [nrows] in *.
  - assert (Forall (fun r => length r = n) rs) as Hrs.
    { apply Forall_lookup. intros i r Hi. apply (Hw i (IntVec r)).
      cbn [getrow]. now rewrite (index_lookup _ _ _ Hi). }
    destruct (traverse_index rs k n Hrs Hk) as (cs & Hcs & Hlen).
    destruct rs as [|r rs]; [simpl in Hn; lia|].
    cbn [column]. rewrite Hcs. simpl. eauto.
  - assert (Forall (fun r => length r = n) rs) as Hrs.
    { apply Forall_lookup. intros i r Hi. apply (Hw i (FloatVec r)).
      cbn [getrow]. now rewrite (index_lookup _ _ _ Hi). }
    destruct (traverse_index rs k n Hrs Hk) as (cs & Hcs & Hlen).
    destruct rs as [|r rs]; [simpl in Hn; lia|].
    cbn [column]. rewrite Hcs. simpl. eauto.
Qed.

Lemma plot_trajectory_ok t y ax0 :
  width y 6 -> nrows y = length t -> 0 < length t ->
  exists ax', plot_trajectory t y ax0 = Ok ax'.
Proof.
  intros Hw Hn Ht. unfold plot_trajectory.
  assert (forall k ax1, k < 6 ->
            exists c, column y k = Ok c /\ ax_plot ax1 t c = Ok (ax1 ++ [(t, c)])) as Hcol.
  { intros k ax1 Hk. destruct (column_ok y k 6 Hw) as (c & Hc & Hlen); [lia | lia |].
    exists c. split; [assumption|]. unfold ax_plot.
    now rewrite Hlen, Hn, Nat.eqb_refl. }
  assert (forall k ax1 (K : list line -> result (list line)), k < 6 ->
            (forall ax2, exists ax', K ax2 = Ok ax') ->
            exists ax', (let! c := column y k in let! ax2 := ax_plot ax1 t c in K ax2)
                        = Ok ax') as Hnext.
  { intros k ax1 K Hk HK. destruct (Hcol k ax1 Hk) as (c & -> & Hp). cbn [bind].
    rewrite Hp. cbn [bind]. apply HK. }
  apply (Hnext 0); [lia|]. intros ax1.
  apply (Hnext 1); [lia|]. intros ax2.
  apply (Hnext 2); [lia|]. intros ax3.
  apply (Hnext 3); [lia|]. intros ax4.
  apply (Hnext 4); [lia|]. intros ax5.
  destruct (Hcol 5 ax5) as (c & -> & Hp); [lia|]. cbn [bind]. eauto.
Qed.

Section Ensemble.
Variable rng : Type.
Variable norm_rvs : float -> float -> rng -> result (float * rng).
Variable np_exp : float -> float.
Hypothesis draws : forall loc scale g, exists x g', norm_rvs loc scale g = Ok (x, g').

Lemma sample_body_ok t p (w : world rng) :
  1 <= length t ->
  exists w' kappa y,
    sample_body rng norm_rvs np_exp t p w = Ok w' /\
    rk45 f_catalysis kappa y0_catalysis t = Ok y /\ nrows y = length t /\
    getrow y 0 = Ok (FloatVec [500; 0; 0; 0; 0; 0]%float) /\
    plot_trajectory t y (ax w) = Ok (ax w').
Proof.
  intros Ht. unfold sample_body.
  destruct (draws (mu1 p) (sig1 p) (gen w)) as (x1 & g1 & ->). cbn [bind].
  destruct (draws (mu2 p) (sig2 p) g1) as (x2 & g2 & ->). cbn [bind].
  destruct (draws (mu3 p) (sig3 p) g2) as (x3 & g3 & ->). cbn [bind].
  destruct (draws (mu4 p) (sig4 p) g3) as (x4 & g4 & ->). cbn [bind].
  destruct (draws (mu5 p) (sig5 p) g4) as (x5 & g5 & ->). cbn [bind].
  set (kappa := map _ [x1; x2; x3; x4; x5]).
  destruct (rk45_with_ok f_catalysis kappa 6 (f_catalysis_shape_ok kappa eq_refl)
              b_weights y0_catalysis t) as (y & Hy & Hn & _ & Hw & H0 & _);
    [reflexivity | lia |].
  fold (rk45 f_catalysis kappa y0_catalysis t) in Hy. rewrite Hy. cbn [bind].
  destruct (plot_trajectory_ok t y (ax w) Hw Hn) as (ax' & Hax); [lia|].
  rewrite Hax. cbn [bind]. exists (World g5 ax'), kappa, y. repeat split; auto.
Qed.

Lemma sample_loop_ok t p n : forall (w : world rng),
  1 <= length t ->
  exists w' ens,
    sample_loop rng norm_rvs np_exp t p n w = Ok w' /\
    length ens = n /\
    Forall (fun y => nrows y = length t /\
                     getrow y 0 = Ok (FloatVec [500; 0; 0; 0; 0; 0]%float) /\
                     exists kappa, rk45 f_catalysis kappa y0_catalysis t = Ok y) ens /\
    plot_all t ens (ax w) = Ok (ax w').
Proof.
  induction n as [|n IH]; intros w Ht; simpl.
  - exists w, []. repeat split; auto.
  - destruct (sample_body_ok t p w Ht) as (w1 & kappa & y & -> & Hy & Hn & H0 & Hp).
    cbn [bind]. destruct (IH w1 Ht) as (w' & ens & -> & Hlen & Hall & Hplot).
    exists w', (y :: ens). repeat split.
    + simpl. now rewrite Hlen.
    + constructor; eauto.
    + simpl. rewrite Hp. simpl. exact Hplot.
Qed.
End Ensemble.

(** ** The loop as a recurrence on rows *)

Lemma getrow_rows_of y i : getrow y i = index (rows_of y) i.
Proof.
  destruct y as [rs|rs]; simpl; unfold index, rmap; rewrite list_lookup_fmap;
    destruct (rs !! i); reflexivity.
Qed.

Lemma length_rows_of y : length (rows_of y) = nrows y.
Proof. destruct y; simpl; apply length_map. Qed.

Lemma rows_of_put y i w :
  rows_of (put_row y i w) = <[i := cast (dtype_of y) w]> (rows_of y).
Proof. destruct y as [rs|rs]; simpl; now rewrite list_fmap_insert. Qed.

Lemma dtype1_getrow y i r : getrow y i = Ok r -> dtype1 r = dtype_of y.
Proof.
  destruct y as [rs|rs]; simpl; intros H; apply bind_ok in H as (a & _ & [= <-]);
    reflexivity.
Qed.

Lemma rows_of_inj y y' : dtype_of y = dtype_of y' -> rows_of y = rows_of y' -> y = y'.
Proof.
  destruct y as [rs|rs], y' as [rs'|rs']; simpl; try discriminate; intros _ H;
    f_equal; revert rs' H; induction rs as [|r rs IH]; intros [|r' rs'] H;
    simpl in H; try discriminate; try reflexivity;
    injection H as -> H; f_equal; auto.
Qed.

Lemma setrow_broadcast y j v old :
  getrow y j = Ok old ->
  setrow y j v = rmap (put_row y j) (broadcast_to (len1 old) v).
Proof.
  destruct y as [rs|rs]; simpl; intros H;
    apply bind_ok in H as (a & Ha & [= <-]); rewrite Ha; simpl;
    destruct (broadcast_to (length a) v); reflexivity.
Qed.

Section Rows.
Context {Args : Type}.
Variable f : ndarray1 -> float -> Args -> result fvec.
Variable args : Args.
Variable b : weights5.

(** Case analysis on the computation at the head of both sides. *)
Ltac both_case :=
  match goal with
  | |- bind ?m _ = _ => destruct m; cbn [bind]; [|reflexivity]
  end.

Lemma rk45_body_next t i y yi old :
  getrow y i = Ok yi -> getrow y (S i) = Ok old -> len1 old = len1 yi ->
  rk45_body_with f args b t i y = rmap (put_row y (S i)) (next_vec f args b t i yi).
Proof.
  intros Hyi Hold Hlen. unfold rk45_body_with, next_vec, rmap.
  rewrite Nat.add_1_r. do 2 both_case. rewrite Hyi. cbn [bind].
  match goal with |- context [stages f args yi ?s ?h] =>
    destruct (stages f args yi s h) as [[[[[[k1 k2] k3] k4] k5] k6]|]
  end; cbn [bind]; [|reflexivity].
  both_case.
  rewrite (setrow_broadcast _ _ _ _ Hold), Hlen. unfold rmap.
  match goal with |- context [broadcast_to (len1 yi) ?v] =>
    destruct (broadcast_to (len1 yi) v) as [w|]; cbn [bind]; [|reflexivity] end.
  rewrite getrow_put_ne by lia. rewrite Hyi. cbn [bind].
  both_case. reflexivity.
Qed.

Lemma next_vec_length t i yi w : next_vec f args b t i yi = Ok w -> length w = len1 yi.
Proof.
  unfold next_vec. intros H.
  apply bind_ok in H as (ti1 & _ & H). apply bind_ok in H as (ti & _ & H).
  apply bind_ok in H as ([[[[[k1 k2] k3] k4] k5] k6] & _ & H).
  apply bind_ok in H as (y4 & _ & H). apply bind_ok in H as (w' & Hw & H).
  apply bind_ok in H as (y5 & _ & [= <-]).
  eapply broadcast_to_length; eauto.
Qed.

Lemma rk45_loop_rows t k : forall a y ya,
  width y (len1 ya) -> a + k < nrows y -> getrow y a = Ok ya ->
  rmap rows_of (rk45_loop_with f args b t (seq a k) y) =
    let! rs := rows_from f args b t a ya k in
    Ok (take a (rows_of y) ++ rs ++ drop (a + k + 1) (rows_of y)).
Proof.
  induction k as [|k IH]; intros a y ya Hw Hak Hya.
  - simpl. f_equal. rewrite Nat.add_0_r, Nat.add_1_r.
    rewrite getrow_rows_of in Hya. apply index_ok in Hya.
    symmetry. change (ya :: drop (S a) (rows_of y)) with ([ya] ++ drop (S a) (rows_of y)).
    rewrite app_assoc, <- (take_S_r _ _ _ Hya). apply take_drop.
  - destruct (getrow_lt y (S a)) as [old Hold]; [lia|].
    cbn [seq rk45_loop_with rows_from].
    rewrite (rk45_body_next t a y ya old Hya Hold) by (now rewrite (Hw _ _ Hold)).
    unfold next_row, rmap.
    destruct (next_vec f args b t a ya) as [w|e] eqn:Hnext; cbn [bind]; [|reflexivity].
    apply next_vec_length in Hnext.
    pose proof (dtype1_getrow _ _ _ Hya) as Hd.
    assert (getrow (put_row y (S a) w) (S a) = Ok (cast (dtype1 ya) w)) as Hnew.
    { rewrite Hd. apply getrow_put_eq. lia. }
    specialize (IH (S a) (put_row y (S a) w) (cast (dtype1 ya) w)).
    rewrite len1_cast, Hnext in IH. unfold rmap in IH. rewrite IH; clear IH.
    + destruct (rows_from f args b t (S a) (cast (dtype1 ya) w) k) as [rs|e];
        cbn [bind]; [|reflexivity].
      f_equal. rewrite rows_of_put.
      rewrite take_insert_ge by lia. rewrite drop_insert_lt by lia.
      rewrite getrow_rows_of in Hya. apply index_ok in Hya.
      rewrite (take_S_r _ _ _ Hya). rewrite <- app_assoc.
      replace (a + S k + 1) with (S a + k + 1) by lia. reflexivity.
    + now apply width_put.
    + rewrite nrows_put. lia.
    + exact Hnew.
Qed.

(** The rows of what [rk45] returns, and its errors, are those of the
    recurrence started at [np.array(y0)]. *)
Lemma rk45_rows y0 t :
  1 <= length t ->
  rmap rows_of (rk45_with f args b y0 t) =
    rows_from f args b t 0 (np_array1 y0) (length t - 1).
Proof.
  intros Ht. unfold rk45_with.
  rewrite (rk45_loop_rows t (length t - 1) 0 _ (np_array1 y0)).
  - destruct (rows_from f args b t 0 (np_array1 y0) (length t - 1)) as [rs|e];
      cbn [bind]; [|reflexivity].
    f_equal. rewrite take_0. simpl. rewrite drop_ge; [apply app_nil_r|].
    rewrite length_rows_of, nrows_np_array_rep. lia.
  - intros i r Hr. rewrite (width_np_array_rep y0 (length t) i r Hr).
    unfold np_array1. destruct (result_type y0); simpl; now rewrite length_map.
  - rewrite nrows_np_array_rep. lia.
  - apply getrow_np_array_rep. lia.
Qed.
End Rows.

Section RowsFacts.
Context {Args : Type}.
Variable f : ndarray1 -> float -> Args -> result fvec.
Variable args : Args.
Variable b : weights5.

Lemma next_vec_grid t t' i i' yi :
  t !! i = t' !! i' -> t !! S i = t' !! S i' ->
  next_vec f args b t i yi = next_vec f args b t' i' yi.
Proof.
  intros H0 H1. unfold next_vec, index. rewrite !Nat.add_1_r, H0, H1. reflexivity.
Qed.

Lemma rows_from_grid t t' k : forall i i' yi,
  (forall j, j <= k -> t !! (i + j) = t' !! (i' + j)) ->
  rows_from f args b t i yi k = rows_from f args b t' i' yi k.
Proof.
  induction k as [|k IH]; intros i i' yi H; [reflexivity|].
  cbn [rows_from]. unfold next_row.
  rewrite (next_vec_grid t t' i i').
  - destruct (next_vec f args b t' i' yi) as [w|e]; cbn [rmap bind]; [|reflexivity].
    rewrite (IH (S i) (S i')); [reflexivity|].
    intros j Hj. specialize (H (S j)). rewrite !Nat.add_succ_r in H. apply H. lia.
  - specialize (H 0). rewrite !Nat.add_0_r in H. apply H. lia.
  - specialize (H 1). rewrite !Nat.add_1_r in H. apply H. lia.
Qed.

Lemma next_row_shape t i yi r :
  next_row f args b t i yi = Ok r -> len1 r = len1 yi /\ dtype1 r = dtype1 yi.
Proof.
  unfold next_row. intros H. apply bind_ok in H as (w & Hw & [= <-]).
  apply next_vec_length in Hw. rewrite len1_cast. split; [assumption|].
  now destruct (dtype1 yi).
Qed.

Lemma rows_from_shape t k : forall i yi rs,
  rows_from f args b t i yi k = Ok rs ->
  length rs = S k /\ rs !! 0 = Some yi /\
  Forall (fun r => len1 r = len1 yi /\ dtype1 r = dtype1 yi) rs.
Proof.
  induction k as [|k IH]; intros i yi rs; cbn [rows_from].
  - intros [= <-]. repeat split. constructor; auto.
  - intros H. apply bind_ok in H as (r & Hr & H).
    apply bind_ok in H as (rest & Hrest & [= <-]).
    destruct (IH _ _ _ Hrest) as (Hlen & _ & Hall).
    destruct (next_row_shape _ _ _ _ Hr) as [Hl Hd].
    repeat split; [simpl; now rewrite Hlen|].
    constructor; [auto|]. rewrite Hl, Hd in Hall. exact Hall.
Qed.

Lemma rows_from_prefix t k k' : forall i yi rs,
  rows_from f args b t i yi (k + k') = Ok rs ->
  rows_from f args b t i yi k = Ok (take (S k) rs).
Proof.
  induction k as [|k IH]; intros i yi rs H.
  - simpl in *. destruct k'; cbn [rows_from] in H.
    + now injection H as <-.
    + apply bind_ok in H as (r & _ & H). apply bind_ok in H as (rest & _ & [= <-]).
      reflexivity.
  - cbn [Nat.add rows_from] in *.
    apply bind_ok in H as (r & Hr & H). apply bind_ok in H as (rest & Hrest & [= <-]).
    rewrite Hr. cbn [bind]. rewrite (IH _ _ _ Hrest). reflexivity.
Qed.

Lemma rows_from_suffix t k k' : forall i yi rs,
  rows_from f args b t i yi (k + k') = Ok rs ->
  exists r, rs !! k = Some r /\ rows_from f args b t (i + k) r k' = Ok (drop k rs).
Proof.
  induction k as [|k IH]; intros i yi rs H.
  - simpl in H. exists yi. rewrite Nat.add_0_r. split; [|exact H].
    now destruct (rows_from_shape _ _ _ _ _ H) as (_ & ? & _).
  - cbn [Nat.add rows_from] in H.
    apply bind_ok in H as (r & Hr & H). apply bind_ok in H as (rest & Hrest & [= <-]).
    destruct (IH _ _ _ Hrest) as (r' & Hr' & Hsuf).
    exists r'. split; [exact Hr'|]. rewrite Nat.add_succ_r. exact Hsuf.
Qed.

Lemma rmap_rows_of_ok (x : result ndarray2) rs :
  rmap rows_of x = Ok rs -> exists tr, x = Ok tr /\ rows_of tr = rs.
Proof. intros H. apply bind_ok in H as (tr & -> & [= <-]). eauto. Qed.

Lemma dtype1_np_array1 y0 : dtype1 (np_array1 y0) = result_type y0.
Proof. unfold np_array1. now destruct (result_type y0). Qed.

Lemma len1_np_array1 y0 : len1 (np_array1 y0) = length y0.
Proof. unfold np_array1. destruct (result_type y0); simpl; apply length_map. Qed.

Lemma rk45_with_shape y0 t tr :
  rk45_with f args b y0 t = Ok tr ->
  nrows tr = length t /\ width tr (length y0) /\
  (1 <= length t -> dtype_of tr = result_type y0).
Proof.
  intros Hr. destruct (Nat.le_gt_cases 1 (length t)) as [Ht|Ht].
  - pose proof (rk45_rows f args b y0 t Ht) as Hrows. rewrite Hr in Hrows.
    cbn [rmap bind] in Hrows. symmetry in Hrows.
    destruct (rows_from_shape _ _ _ _ _ Hrows) as (Hlen & H0 & Hall).
    rewrite length_rows_of in Hlen.
    rewrite len1_np_array1, dtype1_np_array1 in Hall.
    split; [lia|]. split.
    + intros i r Hi. rewrite getrow_rows_of in Hi. apply index_ok in Hi.
      rewrite Forall_lookup in Hall. now destruct (Hall _ _ Hi).
    + intros _. rewrite <- (dtype1_getrow tr 0 (np_array1 y0)).
      * apply dtype1_np_array1.
      * rewrite getrow_rows_of. now apply index_lookup.
  - rewrite rk45_short_grid in Hr by lia. injection Hr as <-.
    split; [apply nrows_np_array_rep|]. split; [apply width_np_array_rep | lia].
Qed.
End RowsFacts.

(** ** What a returned trajectory looks like, for any right-hand side *)

(** X1: for a [y0] whose integers fit [int64], and whatever [f] returns
    (broadcast or not), a trajectory that [rk45] returns has one entry per
    time point, every entry has the length of [y0], and on a non-empty
    grid its element type is the one numpy finds for [y0]. *)
Theorem rk45_shape {Args} (f : ndarray1 -> float -> Args -> result fvec) args y0 t tr :
  wf_state y0 ->
  rk45 f args y0 t = Ok tr ->
  nrows tr = length t /\ width tr (length y0) /\
  (1 <= length t -> dtype_of tr = result_type y0).
Proof. intros _. apply rk45_with_shape. Qed.

Lemma rk45_shape_witness :
  nrows (FloatArr [[1; 2]; [1.4999999999999998; 2.5]]%float) = 2 /\
  width (FloatArr [[1; 2]; [1.4999999999999998; 2.5]]%float) 2 /\
  (1 <= 2 -> dtype_of (FloatArr [[1; 2]; [1.4999999999999998; 2.5]]%float) = float64).
Proof.
  apply (rk45_shape (f_const [0.5%float]) tt [PyFloat 1; PyFloat 2] [0; 1]%float).
  - repeat constructor.
  - vm_compute. reflexivity.
Defined.

Lemma rows_of_take_rows m tr : rows_of (take_rows m tr) = take m (rows_of tr).
Proof. destruct tr; simpl; apply fmap_take. Qed.

Lemma rows_of_drop_rows m tr : rows_of (drop_rows m tr) = drop m (rows_of tr).
Proof. destruct tr; simpl; apply fmap_drop. Qed.

(** X2: the entries do not depend on the time points after them: when
    [rk45] returns on a grid [t], it returns on every non-empty prefix
    [t[:m]] of the grid, and what it returns is the first [m] entries. *)
Theorem rk45_prefix {Args} (f : ndarray1 -> float -> Args -> result fvec)
    args y0 t tr m :
  rk45 f args y0 t = Ok tr -> 1 <= m <= length t ->
  rk45 f args y0 (take m t) = Ok (take_rows m tr).
Proof.
  intros Hr Hm. unfold rk45 in Hr.
  assert (length (take m t) = m) as Hlen by (rewrite length_take; lia).
  pose proof (rk45_rows f args b_weights y0 t ltac:(lia)) as Hrows.
  rewrite Hr in Hrows. cbn [rmap bind] in Hrows. symmetry in Hrows.
  replace (length t - 1) with ((m - 1) + (length t - m)) in Hrows by lia.
  apply rows_from_prefix in Hrows.
  pose proof (rk45_rows f args b_weights y0 (take m t)) as Hpre.
  rewrite Hlen in Hpre. specialize (Hpre ltac:(lia)).
  rewrite (rows_from_grid f args b_weights (take m t) t (m - 1) 0 0) in Hpre.
  2:{ intros j Hj. apply lookup_take_lt. simpl. lia. }
  rewrite Hrows in Hpre. apply rmap_rows_of_ok in Hpre as (tr' & Htr' & Heq).
  unfold rk45. rewrite Htr'. f_equal. apply rows_of_inj.
  - destruct (rk45_with_shape _ _ _ _ _ _ Htr') as (_ & _ & Hd').
    destruct (rk45_with_shape _ _ _ _ _ _ Hr) as (_ & _ & Hd).
    rewrite Hd' by lia. rewrite <- Hd by lia. now destruct tr.
  - rewrite Heq, rows_of_take_rows. f_equal. lia.
Qed.

Lemma rk45_prefix_witness :
  rk45 f_catalysis kappa_demo y0_int_demo (take 2 t_demo)
    = Ok (take_rows 2 (IntArr [[500; 0; 0; 0; 0; 0]; [484; 15; 0; 0; 0; 0];
                               [468; 29; 0; 0; 0; 0]]%Z)).
Proof.
  apply (rk45_prefix f_catalysis kappa_demo y0_int_demo t_demo).
  - vm_compute. reflexivity.
  - simpl. lia.
Defined.

Lemma int_of_PyInt l : map int_of (map PyInt l) = l.
Proof. induction l as [|a l IH]; simpl; [reflexivity | now rewrite IH]. Qed.

Lemma float_of_PyFloat l : map float_of (map PyFloat l) = l.
Proof. induction l as [|a l IH]; simpl; [reflexivity | now rewrite IH]. Qed.

Lemma forallb_is_int_PyInt l : forallb is_int (map PyInt l) = true.
Proof. induction l as [|a l IH]; simpl; auto. Qed.

Lemma np_array1_items r : (dtype1 r = int64 -> len1 r <> 0) -> np_array1 (items r) = r.
Proof.
  destruct r as [zs|xs]; simpl; intros H.
  - destruct zs as [|z zs]; [now specialize (H eq_refl)|].
    unfold np_array1, result_type.
    change (map PyInt (z :: zs)) with (PyInt z :: map PyInt zs) at 1.
    cbv beta iota. rewrite forallb_is_int_PyInt. now rewrite int_of_PyInt.
  - unfold np_array1, result_type. destruct xs as [|x xs]; [reflexivity|].
    change (map PyFloat (x :: xs)) with (PyFloat x :: map PyFloat xs) at 1.
    cbv beta iota.
    change (forallb is_int (map PyFloat (x :: xs))) with false.
    now rewrite float_of_PyFloat.
Qed.

Lemma result_type_int_nonempty y0 : result_type y0 = int64 -> length y0 <> 0.
Proof. destruct y0; [discriminate | simpl; lia]. Qed.

(** X3: the integration can be restarted from any entry: when [rk45]
    returns [tr] on a grid [t], starting again from entry [j] of [tr] on
    the rest of the grid, [t[j:]], returns the entries of [tr] from [j]
    on. *)
Theorem rk45_restart {Args} (f : ndarray1 -> float -> Args -> result fvec)
    args y0 t tr j rj :
  rk45 f args y0 t = Ok tr -> getrow tr j = Ok rj ->
  rk45 f args (items rj) (drop j t) = Ok (drop_rows j tr).
Proof.
  intros Hr Hj. unfold rk45 in Hr.
  destruct (rk45_with_shape _ _ _ _ _ _ Hr) as (Hn & Hw & Hd).
  apply getrow_nrows in Hj as Hlt. rewrite Hn in Hlt.
  assert (length (drop j t) = length t - j) as Hlen by apply length_drop.
  pose proof (dtype1_getrow _ _ _ Hj) as Hdj. rewrite Hd in Hdj by lia.
  assert (np_array1 (items rj) = rj) as Hnp.
  { apply np_array1_items. intros Hi. rewrite (Hw _ _ Hj).
    apply result_type_int_nonempty. congruence. }
  pose proof (rk45_rows f args b_weights y0 t ltac:(lia)) as Hrows.
  rewrite Hr in Hrows. cbn [rmap bind] in Hrows. symmetry in Hrows.
  replace (length t - 1) with (j + (length t - j - 1)) in Hrows by lia.
  apply rows_from_suffix in Hrows as (r & Hrj & Hsuf).
  rewrite getrow_rows_of in Hj. apply index_ok in Hj.
  assert (r = rj) as -> by congruence. simpl in Hsuf.
  pose proof (rk45_rows f args b_weights (items rj) (drop j t)) as Hre.
  rewrite Hlen, Hnp in Hre. specialize (Hre ltac:(lia)).
  rewrite (rows_from_grid f args b_weights (drop j t) t (length t - j - 1) 0 j) in Hre.
  2:{ intros i _. apply lookup_drop. }
  rewrite Hsuf in Hre. apply rmap_rows_of_ok in Hre as (tr' & Htr' & Heq).
  unfold rk45. rewrite Htr'. f_equal. apply rows_of_inj.
  - destruct (rk45_with_shape _ _ _ _ _ _ Htr') as (_ & _ & Hd').
    rewrite Hd' by lia. rewrite <- dtype1_np_array1, Hnp, Hdj, <- Hd by lia.
    now destruct tr.
  - now rewrite Heq, rows_of_drop_rows.
Qed.

Lemma rk45_restart_witness :
  rk45 f_catalysis kappa_demo (items (IntVec [484; 15; 0; 0; 0; 0]%Z)) (drop 1 t_demo)
    = Ok (drop_rows 1 (IntArr [[500; 0; 0; 0; 0; 0]; [484; 15; 0; 0; 0; 0];
                               [468; 29; 0; 0; 0; 0]]%Z)).
Proof.
  apply (rk45_restart f_catalysis kappa_demo y0_int_demo t_demo).
  - vm_compute. reflexivity.
  - reflexivity.
Defined.

(** ** Where errors come from *)

Lemma radd_err s v e : s ⊞ v = Err e -> s = Err e \/ e = ValueError.
Proof.
  destruct s as [u|e']; simpl; [|intros [= <-]; now left].
  pose proof (bc_add_len u v) as H. destruct (bc_len (length u) (length v)).
  - destruct H as (w & -> & _). discriminate.
  - rewrite H. intros [= <-]. now right.
Qed.

Lemma broadcast_to_err n v e : broadcast_to n v = Err e -> e = ValueError.
Proof.
  unfold broadcast_to. destruct (length v =? n); [discriminate|].
  destruct v as [|x [|]]; try discriminate; now intros [= <-].
Qed.

Section Errors.
Context {Args : Type}.
Variable f : ndarray1 -> float -> Args -> result fvec.
Variable args : Args.

(** A sum that failed failed by broadcasting. *)
Ltac sum_failed H :=
  repeat (apply radd_err in H as [H| ->]; [|left; reflexivity]);
  discriminate H.

(** A stage that failed failed in [f]. *)
Ltac stage_failed H :=
  unfold stage, rmap in H;
  match type of H with
  | bind (f ?y ?s args) _ = Err _ =>
      let Hf := fresh "Hf" in
      destruct (f y s args) eqn:Hf; [discriminate H|];
      injection H as <-; right; eauto
  end.

Ltac failed_at_head :=
  match goal with
  | |- bind ?m _ = Err _ -> _ =>
      let E := fresh "E" in
      destruct m eqn:E; cbn [bind];
      [ | intros [= <-]; first [ stage_failed E | sum_failed E ] ]
  end.

Lemma stages_err yi ti h e : stages f args yi ti h = Err e -> own_or_raised f args e.
Proof.
  unfold stages, own_or_raised. do 11 failed_at_head. discriminate.
Qed.

Lemma next_vec_err b t i yi e :
  S i < length t -> next_vec f args b t i yi = Err e -> own_or_raised f args e.
Proof.
  intros Hi. unfold next_vec. rewrite Nat.add_1_r.
  destruct (index_lt t (S i)) as [ti1 ->]; [lia|].
  destruct (index_lt t i) as [ti ->]; [lia|]. cbn [bind].
  destruct (stages f args yi ti (F.sub ti1 ti))
    as [[[[[[k1 k2] k3] k4] k5] k6]|e'] eqn:Hst; cbn [bind].
  - unfold own_or_raised. failed_at_head.
    match goal with |- bind ?m _ = _ -> _ => destruct m eqn:Hb; cbn [bind] end.
    + failed_at_head. discriminate.
    + intros [= <-]. left. eapply broadcast_to_err; eauto.
  - intros [= <-]. eapply stages_err; eauto.
Qed.

Lemma rows_from_err b t k : forall i yi e,
  i + k < length t -> rows_from f args b t i yi k = Err e -> own_or_raised f args e.
Proof.
  induction k as [|k IH]; intros i yi e Hi; cbn [rows_from]; [discriminate|].
  unfold next_row, rmap.
  destruct (next_vec f args b t i yi) as [w|e'] eqn:Hn; cbn [bind].
  - destruct (rows_from f args b t (S i) (cast (dtype1 yi) w) k) as [rs|e'] eqn:Hr;
      cbn [bind]; [discriminate|].
    intros [= <-]. eapply (IH (S i)); [|exact Hr]. lia.
  - intros [= <-]. eapply next_vec_err; [|exact Hn]. lia.
Qed.
End Errors.

(** X4: [rk45] raises nothing of its own but numpy's broadcast error: an
    error of the integrator is [ValueError] or an error that [f] raised
    on some state and time.  In particular no index is ever out of
    range. *)
Theorem rk45_errors {Args} (f : ndarray1 -> float -> Args -> result fvec) args y0 t e :
  rk45 f args y0 t = Err e ->
  e = ValueError \/ exists y s, f y s args = Err e.
Proof.
  intros Hr. unfold rk45 in Hr.
  destruct (Nat.le_gt_cases 1 (length t)) as [Ht|Ht].
  - pose proof (rk45_rows f args b_weights y0 t Ht) as Hrows.
    rewrite Hr in Hrows. cbn [rmap bind] in Hrows. symmetry in Hrows.
    apply (rows_from_err f args) in Hrows; [exact Hrows | lia].
  - rewrite rk45_short_grid in Hr by lia. discriminate.
Qed.

Lemma rk45_errors_witness :
  ValueError = ValueError \/
  exists y s, f_const [1; 2; 3]%float y s tt = Err ValueError.
Proof.
  apply (rk45_errors (f_const [1; 2; 3]%float) tt [PyFloat 1; PyFloat 2] [0; 1]%float).
  vm_compute. reflexivity.
Defined.

(** X5: an error that [f] raises at its first call, on the initial state
    and [t[0]], is the error of the integrator, on any grid of at least two
    points. *)
Theorem rk45_first_call_error {Args} (f : ndarray1 -> float -> Args -> result fvec)
    args y0 t t0 e :
  2 <= length t -> t !! 0 = Some t0 ->
  f (np_array1 y0) t0 args = Err e ->
  rk45 f args y0 t = Err e.
Proof.
  intros Ht Ht0 Hf.
  pose proof (rk45_rows f args b_weights y0 t ltac:(lia)) as Hrows.
  destruct (length t - 1) as [|k] eqn:Hk; [lia|].
  cbn [rows_from] in Hrows. unfold next_row, next_vec in Hrows.
  destruct (index_lt t (0 + 1)) as [t1 Ht1]; [simpl; lia|].
  rewrite Ht1, (index_lookup _ _ _ Ht0) in Hrows. cbn [bind rmap] in Hrows.
  unfold stages, stage in Hrows. rewrite Hf in Hrows. cbn [bind rmap] in Hrows.
  unfold rk45. destruct (rk45_with f args b_weights y0 t); [discriminate Hrows|].
  cbn [rmap bind] in Hrows. congruence.
Qed.

Lemma rk45_first_call_error_witness :
  rk45 (fun _ _ (_ : unit) => Err (Raised 7)) tt [PyFloat 1] [0; 1]%float
    = Err (Raised 7).
Proof.
  apply (rk45_first_call_error (fun _ _ (_ : unit) => Err (Raised 7)) tt
           [PyFloat 1] [0; 1]%float 0%float).
  - simpl. lia.
  - reflexivity.
  - reflexivity.
Defined.

(** ** The fifth-order combination, on any input *)

(** X6: on every input, valid or not, the result of the integrator, a
    trajectory or an error, is the same for every choice of the weights
    [b1], [b3], [b4], [b5], [b6]. *)
Theorem rk45_weights_any {Args} (f : ndarray1 -> float -> Args -> result fvec)
    args y0 t b :
  rk45_with f args b y0 t = rk45 f args y0 t.
Proof. unfold rk45, rk45_with. apply rk45_loop_weights. Qed.

Lemma rk45_body_keep_y5 {Args} (f : ndarray1 -> float -> Args -> result fvec)
    args b t i y y' :
  rk45_body_no_y5 f args t i y = Ok y' ->
  rk45_body_with f args b t i y = Ok y' \/
  rk45_body_with f args b t i y = Err ValueError.
Proof.
  intros H. unfold rk45_body_no_y5 in H.
  apply bind_ok in H as (ti1 & H1 & H). apply bind_ok in H as (ti & H2 & H).
  apply bind_ok in H as (yi & H3 & H).
  apply bind_ok in H as ([[[[[k1 k2] k3] k4] k5] k6] & H4 & H).
  apply bind_ok in H as (y4 & H5 & H6).
  unfold rk45_body_with. rewrite H1. cbn [bind]. rewrite H2. cbn [bind].
  rewrite H3. cbn [bind]. rewrite H4. cbn [bind]. rewrite H5. cbn [bind].
  rewrite H6. cbn [bind].
  apply setrow_put in H6 as (u & -> & _).
  rewrite getrow_put_ne by lia. rewrite H3. cbn [bind].
  match goal with |- context [bind ?m _] => destruct m as [y5|e] eqn:Hs end;
    cbn [bind]; [now left|].
  right. f_equal.
  repeat (apply radd_err in Hs as [Hs| ->]; [|reflexivity]). discriminate Hs.
Qed.

Lemma rk45_loop_keep_y5 {Args} (f : ndarray1 -> float -> Args -> result fvec)
    args b t idx : forall y tr,
  rk45_loop_no_y5 f args t idx y = Ok tr ->
  rk45_loop_with f args b t idx y = Ok tr \/
  rk45_loop_with f args b t idx y = Err ValueError.
Proof.
  induction idx as [|i idx IH]; intros y tr; simpl; [now left|].
  intros H. apply bind_ok in H as (y1 & Hb & Hl).
  destruct (rk45_body_keep_y5 f args b t i y y1 Hb) as [-> | ->]; cbn [bind]; auto.
Qed.

(** X7: on every input, removing the line that computes [y5] never changes
    a trajectory that [rk45] returns; and where the integrator without that
    line returns a trajectory, [rk45] returns the same one or raises
    numpy's broadcast error, nothing else. *)
Theorem rk45_y5_any_input {Args} (f : ndarray1 -> float -> Args -> result fvec)
    args y0 t tr :
  (rk45 f args y0 t = Ok tr -> rk45_no_y5 f args y0 t = Ok tr) /\
  (rk45_no_y5 f args y0 t = Ok tr ->
   rk45 f args y0 t = Ok tr \/ rk45 f args y0 t = Err ValueError).
Proof.
  split.
  - apply rk45_loop_drop_y5.
  - apply rk45_loop_keep_y5.
Qed.

Lemma rk45_y5_any_input_witness :
  rk45_no_y5 f_odd_at_half tt [PyFloat 0; PyFloat 0] [0; 1]%float
    = Ok (FloatArr [[0; 0]; [1; 1]]%float) /\
  (rk45 f_odd_at_half tt [PyFloat 0; PyFloat 0] [0; 1]%float
     = Ok (FloatArr [[0; 0]; [1; 1]]%float) \/
   rk45 f_odd_at_half tt [PyFloat 0; PyFloat 0] [0; 1]%float = Err ValueError).
Proof.
  assert (rk45_no_y5 f_odd_at_half tt [PyFloat 0; PyFloat 0] [0; 1]%float
            = Ok (FloatArr [[0; 0]; [1; 1]]%float)) as H by (vm_compute; reflexivity).
  split; [exact H|].
  exact (proj2 (rk45_y5_any_input f_odd_at_half tt [PyFloat 0; PyFloat 0]
                  [0; 1]%float (FloatArr [[0; 0]; [1; 1]]%float)) H).
Defined.

(** ** Derivatives that broadcast *)

Lemma radd_one u x : exists w, Ok u ⊞ [x] = Ok w /\ length w = length u.
Proof.
  pose proof (bc_add_len u [x]) as H. unfold bc_len in H. simpl length in H.
  destruct (length u =? 1) eqn:E; [exact H|]. simpl in H. exact H.
Qed.

Lemma radd_from_one u v :
  length u = 1 -> exists w, Ok u ⊞ v = Ok w /\ length w = length v.
Proof.
  intros Hu. pose proof (bc_add_len u v) as H. unfold bc_len in H. rewrite Hu in H.
  destruct (1 =? length v) eqn:E; [|exact H].
  apply Nat.eqb_eq in E. destruct H as (w & Hw & Lw).
  exists w. split; [exact Hw | congruence].
Qed.

Lemma radd_eq u v :
  length u = length v -> exists w, Ok u ⊞ v = Ok w /\ length w = length v.
Proof.
  intros Huv. exists (u ⊕ v). split; [now apply (radd_same _ _ (length v))|].
  now apply length_vadd.
Qed.

Lemma broadcast_to_mismatch n v :
  length v <> n -> length v <> 1 -> broadcast_to n v = Err ValueError.
Proof.
  intros Hn H1. unfold broadcast_to.
  destruct (Nat.eqb_spec (length v) n); [contradiction|].
  destruct v as [|x [|y v]]; simpl in *; (reflexivity || lia).
Qed.

Section Broadcast.
Context {Args : Type}.
Variable f : ndarray1 -> float -> Args -> result fvec.
Variable args : Args.
Variable b : weights5.

Section LengthOne.
Hypothesis f_one : forall y s, exists d, f y s args = Ok [d].

Ltac call_one :=
  match goal with
  | |- context [f ?y ?s args] =>
      let d := fresh "d" in
      destruct (f_one y s) as [d ->]; cbn [bind rmap smul map]
  end.

Ltac add_one :=
  match goal with
  | |- context [Ok ?u ⊞ [?x]] =>
      let w := fresh "w" in
      let Lw := fresh "Lw" in
      destruct (radd_one u x) as (w & -> & Lw)
  end.

Lemma next_vec_one t i yi :
  S i < length t -> exists w, next_vec f args b t i yi = Ok w.
Proof.
  intros Hi. unfold next_vec. rewrite Nat.add_1_r.
  destruct (index_lt t (S i)) as [ti1 ->]; [lia|].
  destruct (index_lt t i) as [ti ->]; [lia|]. cbn [bind].
  unfold stages, stage.
  do 6 (call_one; repeat add_one; cbn [bind]).
  cbn [smul map]. repeat add_one. cbn [bind].
  rewrite broadcast_to_same by (rewrite <- length_as_float; congruence).
  cbn [bind]. repeat add_one. cbn [bind]. eauto.
Qed.

Lemma rows_from_one t k : forall i yi,
  i + k < length t -> exists rs, rows_from f args b t i yi k = Ok rs.
Proof.
  induction k as [|k IH]; intros i yi Hi; cbn [rows_from]; [eauto|].
  unfold next_row. destruct (next_vec_one t i yi) as [w ->]; [lia|]. cbn [rmap bind].
  destruct (IH (S i) (cast (dtype1 yi) w)) as [rs ->]; [lia|]. cbn [bind]. eauto.
Qed.
End LengthOne.

Section LengthM.
Variable m : nat.
Hypothesis f_m : forall y s, exists d, f y s args = Ok d /\ length d = m.
Hypothesis m_not_one : m <> 1.

Ltac call_m :=
  match goal with
  | |- context [f ?y ?s args] =>
      let d := fresh "d" in
      let Ld := fresh "Ld" in
      destruct (f_m y s) as (d & -> & Ld); cbn [bind rmap]
  end.

Ltac lens := rewrite ?length_smul, ?length_as_float; congruence.

Ltac add_m :=
  match goal with
  | |- context [Ok ?u ⊞ ?v] =>
      let w := fresh "w" in
      let Lw := fresh "Lw" in
      first [ destruct (radd_from_one u v ltac:(lens)) as (w & -> & Lw)
            | destruct (radd_eq u v ltac:(lens)) as (w & -> & Lw) ];
      rewrite !length_smul in Lw
  end.

Lemma next_vec_state_one t i yi :
  S i < length t -> len1 yi = 1 -> next_vec f args b t i yi = Err ValueError.
Proof.
  intros Hi Hy. unfold next_vec. rewrite Nat.add_1_r.
  destruct (index_lt t (S i)) as [ti1 ->]; [lia|].
  destruct (index_lt t i) as [ti ->]; [lia|]. cbn [bind].
  unfold stages, stage.
  do 6 (call_m; repeat add_m; cbn [bind]).
  repeat add_m. cbn [bind].
  rewrite broadcast_to_mismatch by congruence. reflexivity.
Qed.
End LengthM.
End Broadcast.

(** X8: a right-hand side that always returns a derivative of length one
    is accepted for a state of any length: numpy broadcasts the derivative
    over the state, nothing is raised, and the trajectory has one entry of
    the length of [y0] per time point. *)
Theorem rk45_scalar_derivative {Args} (f : ndarray1 -> float -> Args -> result fvec)
    args y0 t :
  (forall y s, exists d, f y s args = Ok [d]) ->
  exists tr, rk45 f args y0 t = Ok tr /\ nrows tr = length t /\
             width tr (length y0).
Proof.
  intros Hone.
  assert (exists tr, rk45 f args y0 t = Ok tr) as [tr Htr].
  { unfold rk45. destruct (Nat.le_gt_cases 1 (length t)) as [Ht|Ht].
    - pose proof (rk45_rows f args b_weights y0 t Ht) as Hrows.
      destruct (rows_from_one f args b_weights Hone t (length t - 1) 0 (np_array1 y0))
        as [rs Hrs]; [lia|].
      rewrite Hrs in Hrows. apply rmap_rows_of_ok in Hrows as (tr & -> & _). eauto.
    - rewrite rk45_short_grid by lia. eauto. }
  exists tr. split; [assumption|].
  destruct (rk45_with_shape _ _ _ _ _ _ Htr) as (Hn & Hw & _). auto.
Qed.

Lemma rk45_scalar_derivative_witness :
  exists tr,
    rk45 (f_const [0.5%float]) tt [PyFloat 1; PyFloat 2; PyFloat 3] t_demo = Ok tr /\
    nrows tr = 3 /\ width tr 3.
Proof.
  apply (rk45_scalar_derivative (f_const [0.5%float]) tt
           [PyFloat 1; PyFloat 2; PyFloat 3] t_demo).
  intros y s. exists 0.5%float. reflexivity.
Defined.

(** X9: the other way round there is no broadcast: for a state of length
    one and a right-hand side that always returns a derivative of another
    length [m], the first step computes its six stages on states of length
    [m] and then raises [ValueError] when the result is stored into the
    row of length one. *)
Theorem rk45_state_of_length_one {Args} (f : ndarray1 -> float -> Args -> result fvec)
    args y0 t m :
  (forall y s, exists d, f y s args = Ok d /\ length d = m) -> m <> 1 ->
  length y0 = 1 -> 2 <= length t ->
  rk45 f args y0 t = Err ValueError.
Proof.
  intros Hm Hne Hy0 Ht.
  pose proof (rk45_rows f args b_weights y0 t ltac:(lia)) as Hrows.
  destruct (length t - 1) as [|k] eqn:Hk; [lia|].
  cbn [rows_from] in Hrows. unfold next_row in Hrows.
  rewrite (next_vec_state_one f args b_weights m Hm Hne) in Hrows.
  - unfold rk45. destruct (rk45_with f args b_weights y0 t); [discriminate Hrows|].
    cbn [rmap bind] in Hrows. congruence.
  - lia.
  - now rewrite len1_np_array1.
Qed.

Lemma rk45_state_of_length_one_witness :
  rk45 (f_const [0.5; 1]%float) tt [PyFloat 1] [0; 1]%float = Err ValueError.
Proof.
  apply (rk45_state_of_length_one (f_const [0.5; 1]%float) tt [PyFloat 1]
           [0; 1]%float 2).
  - intros y s. exists [0.5; 1]%float. split; reflexivity.
  - lia.
  - reflexivity.
  - simpl. lia.
Defined.

(** ** What [f_catalysis] reads *)

(** X10: [f_catalysis] needs three state components and five parameters,
    no more: with at least that many it returns a derivative of length six
    (whatever the length of the state), and with fewer of either it raises
    [IndexError]. *)
Theorem f_catalysis_domain y t kappa :
  (3 <= len1 y -> 5 <= length kappa ->
   exists d, f_catalysis y t kappa = Ok d /\ length d = 6) /\
  (len1 y < 3 \/ length kappa < 5 -> f_catalysis y t kappa = Err IndexError).
Proof.
  rewrite <- length_as_float. unfold f_catalysis, item.
  generalize (as_float y). intros l.
  destruct l as [|a0 [|a1 [|a2 l]]];
    destruct kappa as [|k0 [|k1 [|k2 [|k3 [|k4 kappa]]]]];
    simpl; (split; [intros; try lia; eauto | intros [H|H]; try lia; reflexivity]).
Qed.

Lemma f_catalysis_domain_witness :
  (exists d, f_catalysis (FloatVec [1; 2; 3]%float) 0 kappa_demo = Ok d /\ length d = 6) /\
  f_catalysis (FloatVec [1; 2]%float) 0 kappa_demo = Err IndexError.
Proof.
  split.
  - apply (proj1 (f_catalysis_domain (FloatVec [1; 2; 3]%float) 0 kappa_demo));
      simpl; lia.
  - apply (proj2 (f_catalysis_domain (FloatVec [1; 2]%float) 0 kappa_demo)).
    left. simpl. lia.
Defined.

Lemma index_take {A} n (l : list A) i : i < n -> index l i = index (take n l) i.
Proof. intros Hi. unfold index. now rewrite lookup_take_lt. Qed.

(** X11: the derivative depends on the first three components of the
    state (the concentrations of NO3-, NO2- and X) and on the first five
    parameters only: not on the time, not on the other components, and an
    integer state gives what its conversion to doubles gives. *)
Theorem f_catalysis_reads y y' t t' kappa kappa' :
  take 3 (as_float y) = take 3 (as_float y') -> take 5 kappa = take 5 kappa' ->
  f_catalysis y t kappa = f_catalysis y' t' kappa'.
Proof.
  intros Hy Hk. unfold f_catalysis, item.
  rewrite !(index_take 3 (as_float y)) by lia.
  rewrite !(index_take 5 kappa) by lia.
  rewrite !(index_take 3 (as_float y')) by lia.
  rewrite !(index_take 5 kappa') by lia.
  rewrite Hy, Hk. reflexivity.
Qed.

Lemma f_catalysis_reads_witness :
  f_catalysis (IntVec [500; 20; 3; 7; 7; 7]%Z) 0 kappa_demo
    = f_catalysis (FloatVec [500; 20; 3]%float) 9 (kappa_demo ++ [1%float]).
Proof.
  apply (f_catalysis_reads (IntVec [500; 20; 3; 7; 7; 7]%Z) (FloatVec [500; 20; 3]%float)
           0%float 9%float kappa_demo (kappa_demo ++ [1%float])).
  - vm_compute. reflexivity.
  - reflexivity.
Defined.

(** ** The curves that are drawn *)

Lemma ax_plot_inv ax0 x c ax' :
  ax_plot ax0 x c = Ok ax' -> ax' = ax0 ++ [(x, c)] /\ len1 c = length x.
Proof.
  unfold ax_plot. destruct (Nat.eqb_spec (length x) (len1 c)); [|discriminate].
  intros [= <-]. auto.
Qed.

Lemma plot_trajectory_inv t y ax0 ax' :
  plot_trajectory t y ax0 = Ok ax' ->
  exists c0 c1 c2 c3 c4 c5,
    ax' = ax0 ++ [(t, c0); (t, c1); (t, c2); (t, c3); (t, c4); (t, c5)] /\
    (column y 0 = Ok c0 /\ column y 1 = Ok c1 /\ column y 2 = Ok c2 /\
     column y 3 = Ok c3 /\ column y 4 = Ok c4 /\ column y 5 = Ok c5) /\
    Forall (fun c => len1 c = length t) [c0; c1; c2; c3; c4; c5].
Proof.
  unfold plot_trajectory. intros H.
  apply bind_ok in H as (c0 & H0 & H). apply bind_ok in H as (a0 & P0 & H).
  apply bind_ok in H as (c1 & H1 & H). apply bind_ok in H as (a1 & P1 & H).
  apply bind_ok in H as (c2 & H2 & H). apply bind_ok in H as (a2 & P2 & H).
  apply bind_ok in H as (c3 & H3 & H). apply bind_ok in H as (a3 & P3 & H).
  apply bind_ok in H as (c4 & H4 & H). apply bind_ok in H as (a4 & P4 & H).
  apply bind_ok in H as (c5 & H5 & P5).
  apply ax_plot_inv in P0 as [-> L0], P1 as [-> L1], P2 as [-> L2],
    P3 as [-> L3], P4 as [-> L4], P5 as [-> L5].
  exists c0, c1, c2, c3, c4, c5. split; [now rewrite <- !app_assoc|].
  split; [tauto|]. repeat constructor; assumption.
Qed.



Section Curves.
Variable rng : Type.
Variable norm_rvs : float -> float -> rng -> result (float * rng).
Variable np_exp : float -> float.

Lemma sample_body_inv t p (w w' : world rng) :
  sample_body rng norm_rvs np_exp t p w = Ok w' ->
  exists y, plot_trajectory t y (ax w) = Ok (ax w').
Proof.
  unfold sample_body. intros H.
  apply bind_ok in H as ([x1 g1] & _ & H). apply bind_ok in H as ([x2 g2] & _ & H).
  apply bind_ok in H as ([x3 g3] & _ & H). apply bind_ok in H as ([x4 g4] & _ & H).
  apply bind_ok in H as ([x5 g5] & _ & H). apply bind_ok in H as (y & _ & H).
  apply bind_ok in H as (ax' & Hp & [= <-]). eauto.
Qed.

Lemma sample_loop_curves t p n : forall (w w' : world rng),
  sample_loop rng norm_rvs np_exp t p n w = Ok w' ->
  exists new,
    ax w' = ax w ++ new /\ length new = 6 * n /\
    Forall (fun l : line => l.1 = t /\ len1 l.2 = length t) new.
Proof.
  induction n as [|n IH]; intros w w'; simpl.
  - intros [= <-]. exists []. rewrite app_nil_r. auto.
  - intros H. apply bind_ok in H as (w1 & Hb & Hl).
    apply sample_body_inv in Hb as (y & Hy).
    apply plot_trajectory_inv in Hy as (c0 & c1 & c2 & c3 & c4 & c5 & Hax & _ & Hlen).
    destruct (IH _ _ Hl) as (new & Hnew & Hn & Hall).
    exists ([(t, c0); (t, c1); (t, c2); (t, c3); (t, c4); (t, c5)] ++ new).
    split; [now rewrite Hnew, Hax, <- app_assoc|]. split; [simpl; lia|].
    apply Forall_app. split; [|assumption].
    repeat (apply Forall_cons in Hlen as [? Hlen]).
    repeat (constructor; [split; [reflexivity | assumption]|]). constructor.
Qed.

End Curves.

(** X12: [plot_samples] only adds curves: when it returns, the curves that
    were on the axes are still there, in order, followed by six new curves
    per sample, each over the grid of 100 time points with 100 ordinates. *)
Theorem plot_samples_curves (rng : Type) norm_rvs np_exp p (num_samples : Z)
    (w w' : world rng) :
  plot_samples rng norm_rvs np_exp p num_samples w = Ok w' ->
  exists new,
    ax w' = ax w ++ new /\ length new = 6 * Z.to_nat num_samples /\
    Forall (fun l : line => l.1 = linspace 0 180 100 /\ len1 l.2 = 100) new.
Proof.
  unfold plot_samples. intros H.
  apply sample_loop_curves in H as (new & Hax & Hn & Hall).
  exists new. repeat split; auto.
Qed.

Lemma plot_samples_curves_witness :
  exists w' new,
    plot_samples unit rvs_loc (fun x => x) marginals_default 2 (World tt []) = Ok w' /\
    ax w' = [] ++ new /\ length new = 12 /\
    Forall (fun l : line => l.1 = linspace 0 180 100 /\ len1 l.2 = 100) new.
Proof.
  destruct (sample_loop_ok unit rvs_loc (fun x => x)
              (fun loc scale g => ex_intro _ loc (ex_intro _ g eq_refl))
              (linspace 0 180 100) marginals_default 2 (World tt []))
    as (w' & _ & Hw' & _); [simpl; lia|].
  exists w'.
  destruct (plot_samples_curves unit rvs_loc (fun x => x) marginals_default 2
              (World tt []) w' Hw') as (new & H1 & H2 & H3).
  exists new. auto.
Defined.

(** ** The calibration plot *)



Section Degenerate.
Variable rng : Type.
Variable norm_rvs : float -> float -> rng -> result (float * rng).
Variable np_exp : float -> float.
Hypothesis point_mass : forall loc scale g, norm_rvs loc scale g = Ok (loc, g).


End Degenerate.



(** ** Derivatives of another length, in full *)

Lemma radd_keeps_length s v w m :
  (forall u, s = Ok u -> length u = m) -> m <> 1 -> s ⊞ v = Ok w -> length w = m.
Proof.
  intros Hs Hm. destruct s as [u|e]; simpl; [|discriminate].
  specialize (Hs u eq_refl). pose proof (bc_add_len u v) as H.
  unfold bc_len in H. rewrite Hs in H.
  destruct (m =? length v); [| destruct (Nat.eqb_spec m 1); [contradiction|];
                               destruct (length v =? 1)].
  - destruct H as (w' & -> & Hw'). now intros [= <-].
  - destruct H as (w' & -> & Hw'). now intros [= <-].
  - rewrite H. discriminate.
Qed.

Lemma next_vec_state_one_fails {Args} (f : ndarray1 -> float -> Args -> result fvec)
    args b t i yi ti d :
  t !! i = Some ti -> f yi ti args = Ok d -> len1 yi = 1 -> length d <> 1 ->
  exists e, next_vec f args b t i yi = Err e.
Proof.
  intros Hti Hf Hy Hd.
  destruct (next_vec f args b t i yi) as [w|e] eqn:H; [exfalso | eauto].
  unfold next_vec in H.
  apply bind_ok in H as (ti1 & _ & H). apply bind_ok in H as (ti' & Hti' & H).
  apply index_ok in Hti'. assert (ti' = ti) as -> by congruence.
  apply bind_ok in H as ([[[[[k1 k2] k3] k4] k5] k6] & Hst & H).
  apply bind_ok in H as (y4 & Hy4 & H). apply bind_ok in H as (w' & Hb & _).
  unfold stages in Hst. cbv zeta in Hst.
  apply bind_ok in Hst as (k1' & Hk1 & Hst).
  assert (k1 = k1') as ->.
  { repeat (apply bind_ok in Hst as (? & _ & Hst)). now inversion Hst. }
  unfold stage, rmap in Hk1. rewrite Hf in Hk1. cbn [bind] in Hk1.
  injection Hk1 as <-.
  assert (length y4 = length d) as Hlen.
  { eapply radd_keeps_length; [|exact Hd|exact Hy4]. intros u Hu.
    eapply radd_keeps_length; [|exact Hd|exact Hu]. intros u' Hu'.
    eapply radd_keeps_length; [|exact Hd|exact Hu']. intros u'' Hu''.
    destruct (radd_from_one (as_float yi) (a1 ⋅ (F.sub ti1 ti ⋅ d)))
      as (w0 & Hw0 & Lw0); [now rewrite length_as_float|].
    rewrite Hw0 in Hu''. injection Hu'' as <-. now rewrite Lw0, !length_smul. }
  rewrite broadcast_to_mismatch in Hb by congruence. discriminate.
Qed.

(** C5, as the code has it: the lengths of [y0] and of what [f] returns are
    not compared before the loop; a difference is met only by numpy's
    arithmetic in the first step, after [f] has been called.  With fewer
    than two time points [f] is not called and nothing is raised.  With two
    or more, when the first derivative has another length than [y0] and not
    length one, no trajectory is returned: the integrator raises
    [ValueError] (in the first sum when [y0] is not of length one either,
    at the latest in the store into the row when it is), unless [f] itself
    raises before.  When [f] always returns a derivative of length one,
    numpy broadcasts it over the state, nothing is raised and the whole
    trajectory is returned. *)
Theorem rk45_shape_mismatch {Args} (f : ndarray1 -> float -> Args -> result fvec)
    args y0 t :
  (length t < 2 -> rk45 f args y0 t = Ok (np_array_rep y0 (length t))) /\
  (forall t0 d,
      2 <= length t -> t !! 0 = Some t0 ->
      f (np_array1 y0) t0 args = Ok d ->
      length d <> length y0 -> length d <> 1 ->
      exists e, rk45 f args y0 t = Err e /\
                (e = ValueError \/ exists y s, f y s args = Err e) /\
                (length y0 <> 1 -> e = ValueError)) /\
  ((forall y s, exists d, f y s args = Ok [d]) ->
   exists tr, rk45 f args y0 t = Ok tr /\ nrows tr = length t /\
              width tr (length y0)).
Proof.
  split; [apply rk45_short_grid|]. split.
  - intros t0 d Ht Ht0 Hd Hne Hd1.
    destruct (Nat.eq_dec (length y0) 1) as [Hy1|Hy1].
    + pose proof (rk45_rows f args b_weights y0 t ltac:(lia)) as Hrows.
      destruct (length t - 1) as [|k] eqn:Hk; [lia|].
      cbn [rows_from] in Hrows. unfold next_row in Hrows.
      destruct (next_vec_state_one_fails f args b_weights t 0 (np_array1 y0) t0 d)
        as [e He]; auto; [now rewrite len1_np_array1|].
      rewrite He in Hrows. cbn [rmap bind] in Hrows.
      exists e. split; [|split; [|contradiction]].
      * unfold rk45. destruct (rk45_with f args b_weights y0 t); [discriminate Hrows|].
        cbn [rmap bind] in Hrows. congruence.
      * apply (next_vec_err f args b_weights t 0 (np_array1 y0)); [lia | exact He].
    + exists ValueError. split; [|split; [now left | reflexivity]].
      now apply (rk45_first_sum_mismatch f args y0 t t0 d).
  - intros Hone.
    assert (exists tr, rk45 f args y0 t = Ok tr) as [tr Htr].
    { unfold rk45. destruct (Nat.le_gt_cases 1 (length t)) as [Ht|Ht].
      - pose proof (rk45_rows f args b_weights y0 t Ht) as Hrows.
        destruct (rows_from_one f args b_weights Hone t (length t - 1) 0 (np_array1 y0))
          as [rs Hrs]; [lia|].
        rewrite Hrs in Hrows. apply rmap_rows_of_ok in Hrows as (tr & -> & _). eauto.
      - rewrite rk45_short_grid by lia. eauto. }
    exists tr. split; [assumption|].
    destruct (rk45_with_shape _ _ _ _ _ _ Htr) as (Hn & Hw & _). auto.
Qed.

Lemma rk45_shape_mismatch_witness :
  rk45 (f_const [1; 2; 3]%float) tt [PyFloat 1; PyFloat 2] [0%float]
    = Ok (FloatArr [[1; 2]%float]) /\
  (exists e, rk45 (f_const [1; 2; 3]%float) tt [PyFloat 1; PyFloat 2] [0; 1]%float
               = Err e /\
             (e = ValueError \/ exists y s, f_const [1; 2; 3]%float y s tt = Err e) /\
             (length [PyFloat 1; PyFloat 2] <> 1 -> e = ValueError)) /\
  (exists e, rk45 (f_const [0.5; 1]%float) tt [PyFloat 1] [0; 1]%float = Err e /\
             (e = ValueError \/ exists y s, f_const [0.5; 1]%float y s tt = Err e) /\
             (length [PyFloat 1] <> 1 -> e = ValueError)) /\
  (exists tr, rk45 (f_const [0.5%float]) tt [PyFloat 1; PyFloat 2] [0; 1]%float = Ok tr /\
              nrows tr = 2 /\ width tr 2).
Proof.
  split; [|split; [|split]].
  - apply (proj1 (rk45_shape_mismatch (f_const [1; 2; 3]%float) tt
                    [PyFloat 1; PyFloat 2] [0%float])).
    simpl. lia.
  - apply (proj1 (proj2 (rk45_shape_mismatch (f_const [1; 2; 3]%float) tt
                           [PyFloat 1; PyFloat 2] [0; 1]%float))
             0%float [1; 2; 3]%float);
      simpl; (reflexivity || lia).
  - apply (proj1 (proj2 (rk45_shape_mismatch (f_const [0.5; 1]%float) tt
                           [PyFloat 1] [0; 1]%float))
             0%float [0.5; 1]%float);
      simpl; (reflexivity || lia).
  - apply (proj2 (proj2 (rk45_shape_mismatch (f_const [0.5%float]) tt
                           [PyFloat 1; PyFloat 2] [0; 1]%float))).
    intros y s. exists 0.5%float. reflexivity.
Defined.

(** ** The ensemble of [plot_samples], in full *)

Lemma plot_trajectory_columns t y ax0 :
  width y 6 -> nrows y = length t -> 0 < length t ->
  exists cs,
    columns6 y = Ok cs /\ length cs = 6 /\
    plot_trajectory t y ax0 = Ok (ax0 ++ map (fun c => (t, c)) cs).
Proof.
  intros Hw Hn Ht.
  destruct (plot_trajectory_ok t y ax0 Hw Hn Ht) as (ax' & Hax).
  rewrite Hax.
  apply plot_trajectory_inv in Hax
    as (c0 & c1 & c2 & c3 & c4 & c5 & -> & (C0 & C1 & C2 & C3 & C4 & C5) & _).
  exists [c0; c1; c2; c3; c4; c5]. repeat split.
  unfold columns6. cbn [traverse].
  rewrite C0, C1, C2, C3, C4, C5. reflexivity.
Qed.

Section Run.
Variable rng : Type.
Variable norm_rvs : float -> float -> rng -> result (float * rng).
Variable np_exp : float -> float.
Hypothesis draws_pos : forall loc scale g,
  PrimFloat.ltb 0 scale = true -> exists x g', norm_rvs loc scale g = Ok (x, g').

Lemma sample_body_run t p (w : world rng) :
  positive_scales p -> 1 <= length t ->
  exists kappa g' y cs,
    draw_parameters rng norm_rvs np_exp p (gen w) = Ok (kappa, g') /\
    rk45 f_catalysis kappa y0_catalysis t = Ok y /\
    nrows y = length t /\
    getrow y 0 = Ok (FloatVec [500; 0; 0; 0; 0; 0]%float) /\
    columns6 y = Ok cs /\
    sample_body rng norm_rvs np_exp t p w
      = Ok (World g' (ax w ++ map (fun c => (t, c)) cs)).
Proof.
  intros (S1 & S2 & S3 & S4 & S5) Ht. unfold sample_body, draw_parameters.
  destruct (draws_pos (mu1 p) (sig1 p) (gen w) S1) as (x1 & g1 & ->). cbn [bind].
  destruct (draws_pos (mu2 p) (sig2 p) g1 S2) as (x2 & g2 & ->). cbn [bind].
  destruct (draws_pos (mu3 p) (sig3 p) g2 S3) as (x3 & g3 & ->). cbn [bind].
  destruct (draws_pos (mu4 p) (sig4 p) g3 S4) as (x4 & g4 & ->). cbn [bind].
  destruct (draws_pos (mu5 p) (sig5 p) g4 S5) as (x5 & g5 & ->). cbn [bind].
  set (kappa := map _ [x1; x2; x3; x4; x5]).
  destruct (rk45_with_ok f_catalysis kappa 6 (f_catalysis_shape_ok kappa eq_refl)
              b_weights y0_catalysis t) as (y & Hy & Hn & _ & Hw & H0 & _);
    [reflexivity | lia |].
  fold (rk45 f_catalysis kappa y0_catalysis t) in Hy.
  destruct (plot_trajectory_columns t y (ax w) Hw Hn) as (cs & Hcs & _ & Hp); [lia|].
  exists kappa, g5, y, cs. rewrite Hy. cbn [bind]. rewrite Hp. cbn [bind].
  repeat split; auto.
Qed.

Lemma sample_loop_run t p n : forall (w : world rng),
  positive_scales p -> 1 <= length t ->
  exists w' ens css,
    sample_loop rng norm_rvs np_exp t p n w = Ok w' /\
    propagate rng norm_rvs np_exp t p n (gen w) = Ok (ens, gen w') /\
    length ens = n /\
    Forall (fun y => nrows y = length t /\
                     getrow y 0 = Ok (FloatVec [500; 0; 0; 0; 0; 0]%float)) ens /\
    Forall2 (fun y cs => columns6 y = Ok cs) ens css /\
    ax w' = ax w ++ concat (map (map (fun c => (t, c))) css).
Proof.
  induction n as [|n IH]; intros w Hp Ht; cbn [sample_loop propagate].
  - exists w, [], []. simpl. rewrite app_nil_r. repeat split; auto.
  - destruct (sample_body_run t p w Hp Ht)
      as (kappa & g1 & y & cs & -> & Hy & Hn & H0 & Hcs & ->).
    cbn [bind]. rewrite Hy. cbn [bind].
    destruct (IH (World g1 (ax w ++ map (fun c => (t, c)) cs)) Hp Ht)
      as (w' & ens & css & -> & Hprop & Hlen & Hall & Hcols & Hax).
    cbn [gen ax] in Hprop, Hax. rewrite Hprop. cbn [bind].
    exists w', (y :: ens), (cs :: css). repeat split.
    + simpl. now rewrite Hlen.
    + constructor; auto.
    + constructor; auto.
    + rewrite Hax. cbn [map concat]. now rewrite <- app_assoc.
Qed.
End Run.

(** C9: with valid marginals (every scale positive, which the sampler
    accepts), [num_samples = N >= 1] passes of the loop on a time grid of
    [m >= 2] points raise nothing and integrate exactly [N] trajectories,
    those of [propagate] in sample order, each of [m] entries with the
    initial condition as entry zero; the curves added to the axes are the
    six columns of each trajectory over the grid, in sample order;
    [plot_samples] is that loop on its grid of 100 points. *)
Theorem sample_loop_ensemble (rng : Type) norm_rvs np_exp p t (num_samples : Z)
    (w : world rng) :
  (forall loc scale g, PrimFloat.ltb 0 scale = true ->
                       exists x g', norm_rvs loc scale g = Ok (x, g')) ->
  positive_scales p ->
  2 <= length t -> (1 <= num_samples)%Z ->
  (exists w' ens css,
     sample_loop rng norm_rvs np_exp t p (Z.to_nat num_samples) w = Ok w' /\
     propagate rng norm_rvs np_exp t p (Z.to_nat num_samples) (gen w)
       = Ok (ens, gen w') /\
     Z.of_nat (length ens) = num_samples /\
     Forall (fun y => nrows y = length t /\
                      getrow y 0 = Ok (FloatVec [500; 0; 0; 0; 0; 0]%float)) ens /\
     Forall2 (fun y cs => columns6 y = Ok cs) ens css /\
     ax w' = ax w ++ concat (map (map (fun c => (t, c))) css)) /\
  (plot_samples rng norm_rvs np_exp p num_samples w
     = sample_loop rng norm_rvs np_exp (linspace 0 180 100) p (Z.to_nat num_samples) w /\
   length (linspace 0 180 100) = 100).
Proof.
  intros Hd Hp Ht Hn. split; [|split; reflexivity].
  destruct (sample_loop_run rng norm_rvs np_exp Hd t p (Z.to_nat num_samples) w Hp)
    as (w' & ens & css & Hl & Hprop & Hlen & Hall & Hcols & Hax); [lia|].
  exists w', ens, css. repeat split; auto. lia.
Qed.

Lemma rvs_checked_positive loc scale g :
  PrimFloat.ltb 0 scale = true -> exists x g', rvs_checked loc scale g = Ok (x, g').
Proof. intros H. unfold rvs_checked. rewrite H. eauto. Qed.

Lemma sample_loop_ensemble_witness :
  exists w' ens css,
    sample_loop unit rvs_checked (fun x => x) t_demo marginals_default (Z.to_nat 2)
      (World tt []) = Ok w' /\
    propagate unit rvs_checked (fun x => x) t_demo marginals_default (Z.to_nat 2) tt
      = Ok (ens, gen w') /\
    Z.of_nat (length ens) = 2%Z /\
    Forall (fun y => nrows y = length t_demo /\
                     getrow y 0 = Ok (FloatVec [500; 0; 0; 0; 0; 0]%float)) ens /\
    Forall2 (fun y cs => columns6 y = Ok cs) ens css /\
    ax w' = [] ++ concat (map (map (fun c => (t_demo, c))) css).
Proof.
  apply (sample_loop_ensemble unit rvs_checked (fun x => x) marginals_default t_demo 2
           (World tt [])).
  - exact rvs_checked_positive.
  - repeat split.
  - simpl. lia.
  - lia.
Defined.

(** The scales matter: with a scale that the sampler refuses, here
    [sig1 = -1], the first draw raises and no trajectory is integrated. *)
Lemma plot_samples_refused_scale :
  plot_samples unit rvs_checked (fun x => x) marginals_bad_scale 1 (World tt [])
    = Err ValueError.
Proof. vm_compute. reflexivity. Qed.
